(** * Build and watch orchestration of nitro ([src/build.ts])

    A shallow embedding of [writeTypes], [_snapshot], [_build] and
    [_watch], with the properties of the orchestration proved about it.

    Conventions of the embedding.
    - JavaScript strings are Rocq strings holding UTF-8 text.  The
      regular expressions of the source look at ASCII characters and at
      the space characters of the class [\s].
    - A value that may be [undefined] is an [option]; truthiness of
      such a value follows JavaScript ([undefined] and the empty string
      are falsy).
    - Asynchronous functions run on one logical thread.  A function is a
      computation in a state-and-exception monad over a [World]: the
      shared [nitro] context plus the trace of effects on collaborators
      (file system, logger, hook bus, bundler).  A rejected promise is a
      [Throw].
    - Packages that are imported but are not part of this file (pathe,
      rollup, defu, chokidar, the scanner, the storage snapshot) are the
      fields of the class [Externals]. *)

From Stdlib Require Import String Ascii List Bool Arith NArith Lia.
From Stdlib Require Import DecimalString.
Import ListNotations.
Local Open Scope string_scope.
Local Open Scope list_scope.

Set Implicit Arguments.

(** ** JavaScript values and built-ins used by the source *)

Module Js.

Definition nl : string := String (ascii_of_nat 10) EmptyString.

(** Truthiness of a string that may be [undefined]. *)
Definition truthy (v : option string) : bool :=
  match v with
  | Some s => negb (s =? "")
  | None => false
  end.

(** [a || b] on such values. *)
Definition or_else (a b : option string) : option string :=
  if truthy a then a else b.

(** String conversion inside a template literal or a [+]. *)
Definition to_string (v : option string) : string :=
  match v with
  | Some s => s
  | None => "undefined"
  end.

(** Decimal printing of a non-negative integer. *)
Definition show_N (n : N) : string :=
  NilZero.string_of_uint (N.to_uint n).

(** [Array.prototype.join]. *)
Definition join (sep : string) (l : list string) : string :=
  String.concat sep l.

Definition is_lower (c : ascii) : bool :=
  let n := nat_of_ascii c in (97 <=? n)%nat && (n <=? 122)%nat.

Definition is_digit (c : ascii) : bool :=
  let n := nat_of_ascii c in (48 <=? n)%nat && (n <=? 57)%nat.

Fixpoint all_chars (p : ascii -> bool) (s : string) : bool :=
  match s with
  | EmptyString => true
  | String c r => p c && all_chars p r
  end.

(** [s.replace(/:/g, '/')] *)
Fixpoint replace_colons (s : string) : string :=
  match s with
  | EmptyString => EmptyString
  | String c r =>
      String (if (c =? ":")%char then "/"%char else c) (replace_colons r)
  end.

(** [s.replace(/\.[a-z]+$/, '')]: the match starts at the leftmost
    dot that is followed, up to the end of the string, by one or more
    lower-case letters. *)
Fixpoint strip_extension (s : string) : string :=
  match s with
  | EmptyString => EmptyString
  | String c r =>
      if (c =? ".")%char && negb (r =? "") && all_chars is_lower r
      then EmptyString
      else String c (strip_extension r)
  end.

(** *** The class [\s] and the replacement patterns of [replace]

    The members of [\s] are U+0009 to U+000D, U+0020, U+00A0, U+1680,
    U+2000 to U+200A, U+2028, U+2029, U+202F, U+205F, U+3000 and
    U+FEFF.  The ones above U+007F are matched as the two or three
    bytes that encode them; in UTF-8 text such a sequence starts a
    character wherever it occurs. *)
Definition ascii_space (n : nat) : bool :=
  ((9 <=? n)%nat && (n <=? 13)%nat) || (n =? 32)%nat.

(** U+00A0 is [C2 A0]. *)
Definition space2 (n m : nat) : bool :=
  (n =? 194)%nat && (m =? 160)%nat.

(** U+1680 is [E1 9A 80]; U+2000 to U+200A are [E2 80 80] to
    [E2 80 8A]; U+2028, U+2029 and U+202F are [E2 80 A8], [E2 80 A9]
    and [E2 80 AF]; U+205F is [E2 81 9F]; U+3000 is [E3 80 80];
    U+FEFF is [EF BB BF]. *)
Definition space3 (n m k : nat) : bool :=
  ((n =? 225)%nat && (m =? 154)%nat && (k =? 128)%nat)
  || ((n =? 226)%nat && (m =? 128)%nat
      && (((128 <=? k)%nat && (k <=? 138)%nat)
          || (k =? 168)%nat || (k =? 169)%nat || (k =? 175)%nat))
  || ((n =? 226)%nat && (m =? 129)%nat && (k =? 159)%nat)
  || ((n =? 227)%nat && (m =? 128)%nat && (k =? 128)%nat)
  || ((n =? 239)%nat && (m =? 187)%nat && (k =? 191)%nat).

(** A space character at the start of [s]: that character, and the
    rest of [s]. *)
Definition split_space (s : string) : option (string * string) :=
  match s with
  | EmptyString => None
  | String c r =>
      if ascii_space (nat_of_ascii c) then Some (String c EmptyString, r)
      else
        match r with
        | EmptyString => None
        | String d r2 =>
            if space2 (nat_of_ascii c) (nat_of_ascii d)
            then Some (String c (String d EmptyString), r2)
            else
              match r2 with
              | EmptyString => None
              | String e r3 =>
                  if space3 (nat_of_ascii c) (nat_of_ascii d)
                            (nat_of_ascii e)
                  then Some (String c (String d (String e EmptyString)), r3)
                  else None
              end
        end
  end.

(** Longest prefix in which no space character starts, and the
    rest. *)
Fixpoint span_non_space (s : string) : string * string :=
  match s with
  | EmptyString => (EmptyString, EmptyString)
  | String c r =>
      match split_space s with
      | Some _ => (EmptyString, s)
      | None => let (a, b) := span_non_space r in (String c a, b)
      end
  end.

(** The replacement text of one match (GetSubstitution), for a
    regular expression with one capturing group and no named group.
    In the template, [$$] is a dollar sign, [$&] the matched text,
    [$`] the input before the match, [$'] the input after it, and [$1]
    and [$01] the captured text; a [$1] may be followed by a digit,
    which then stands for itself.  Any other [$] stands for itself. *)
Fixpoint substitute (matched before after cap template : string)
  {struct template} : string :=
  match template with
  | EmptyString => EmptyString
  | String c t1 =>
      if negb (c =? "$")%char
      then String c (substitute matched before after cap t1)
      else
        match t1 with
        | EmptyString => String c EmptyString
        | String d t2 =>
            if (d =? "$")%char
            then String "$" (substitute matched before after cap t2)
            else if (d =? "&")%char
            then matched ++ substitute matched before after cap t2
            else if (d =? "`")%char
            then before ++ substitute matched before after cap t2
            else if (d =? "'")%char
            then after ++ substitute matched before after cap t2
            else if (d =? "0")%char
            then
              match t2 with
              | String "1" t3 =>
                  cap ++ substitute matched before after cap t3
              | _ => String c (substitute matched before after cap t1)
              end
            else if (d =? "1")%char
            then cap ++ substitute matched before after cap t2
            else String c (substitute matched before after cap t1)
        end
  end.

(** A match of the pattern of [rewriteRelativePaths] at the start of
    [s]: a space character, [./], and the longest run of characters
    that are no space characters.  Gives the matched text, the run
    and the rest of [s]. *)
Definition match_relative (s : string) : option (string * string * string) :=
  match split_space s with
  | Some (sp, String d (String e r)) =>
      if (d =? ".")%char && (e =? "/")%char
      then let (cap, rest) := span_non_space r in
           Some ((sp ++ "./" ++ cap)%string, cap, rest)
      else None
  | _ => None
  end.

(** The [replace] of [rewriteRelativePaths], with the global flag:
    every match, from left to right, is replaced by the expansion of
    the template made of a blank, [rOutput], and [/$1].  [before] is
    the input already scanned; [fuel] bounds the number of bytes
    still to scan. *)
Fixpoint rewrite_relative (fuel : nat) (rOutput before s : string)
  : string :=
  match fuel with
  | O => s
  | S fuel' =>
      match s with
      | EmptyString => EmptyString
      | String c r =>
          match match_relative s with
          | Some (matched, cap, rest) =>
              substitute matched before rest cap (" " ++ rOutput ++ "/$1")
                ++ rewrite_relative fuel' rOutput (before ++ matched) rest
          | None =>
              String c (rewrite_relative fuel' rOutput
                          (before ++ String c EmptyString) r)
          end
      end
  end.

(** *** Plain objects used as maps

    An object literal [{}] that is filled by assignment.  Own
    properties are kept in creation order.  Enumeration
    ([Object.entries]) follows OrdinaryOwnPropertyKeys: the keys that
    are array indices come first, in ascending numeric order, then the
    other keys in creation order.  A key that is not an own property
    is looked up in [Object.prototype]. *)

Definition object (V : Type) := list (string * V).

Fixpoint digits_value (acc : N) (s : string) : N :=
  match s with
  | EmptyString => acc
  | String c r =>
      digits_value (acc * 10 + N.of_nat (nat_of_ascii c - 48)) r
  end.

(** An array index is the canonical decimal form of an integer below
    [2^32 - 1]. *)
Definition array_index (k : string) : option N :=
  match k with
  | EmptyString => None
  | String c r =>
      if all_chars is_digit k
         && ((r =? "") || negb (c =? "0")%char)
         && (String.length k <=? 10)%nat
         && (digits_value 0 k <? 4294967295)%N
      then Some (digits_value 0 k)
      else None
  end.

Definition is_array_index (k : string) : bool :=
  match array_index k with Some _ => true | None => false end.

(** Names that every plain object inherits from [Object.prototype]. *)
Definition prototype_keys : list string :=
  [ "constructor"; "__defineGetter__"; "__defineSetter__";
    "hasOwnProperty"; "__lookupGetter__"; "__lookupSetter__";
    "isPrototypeOf"; "propertyIsEnumerable"; "toString"; "valueOf";
    "__proto__"; "toLocaleString" ].

Definition inherited (k : string) : bool :=
  existsb (String.eqb k) prototype_keys.

Section Object.
Variable V : Type.

Fixpoint get_own (o : object V) (k : string) : option V :=
  match o with
  | [] => None
  | (k', v) :: o' => if k' =? k then Some v else get_own o' k
  end.

(** Assignment [o[k] = v]: an existing own property keeps its place. *)
Fixpoint set (o : object V) (k : string) (v : V) : object V :=
  match o with
  | [] => [(k, v)]
  | (k', v') :: o' =>
      if k' =? k then (k', v) :: o' else (k', v') :: set o' k v
  end.

Fixpoint insert_index (i : N) (e : string * V)
         (l : list (N * (string * V))) : list (N * (string * V)) :=
  match l with
  | [] => [(i, e)]
  | (j, e') :: l' =>
      if (i <=? j)%N then (i, e) :: l else (j, e') :: insert_index i e l'
  end.

Fixpoint index_entries (o : object V) : list (N * (string * V)) :=
  match o with
  | [] => []
  | (k, v) :: o' =>
      match array_index k with
      | Some i => insert_index i (k, v) (index_entries o')
      | None => index_entries o'
      end
  end.

Definition named_entries (o : object V) : list (string * V) :=
  filter (fun e => negb (is_array_index (fst e))) o.

(** [Object.entries(o)] *)
Definition entries (o : object V) : list (string * V) :=
  map snd (index_entries o) ++ named_entries o.

End Object.

End Js.

(** ** Data model *)

(** [handler] of an event handler: a module path, or an inline function. *)
Inductive handler_ref :=
| HandlerPath (path : string)
| HandlerInline.

Record NitroEventHandler := {
  route : option string;
  handler : handler_ref
}.

Record ServerAsset := {
  baseName : string;
  dir : string
}.

(** What the bundler reports.  An entry carries an [id], a position
    under [loc] (rollup) or [location] (esbuild), and a [text] or a
    [frame]; each may be missing. *)
Record Location := {
  line : N;
  column : N
}.

Record ErrorEntry := {
  id : option string;
  loc : option Location;
  location : option Location;
  text : option string;
  frame : option string
}.

(** The property [errors] of a rejection value: absent, an array of
    entries, or present with a value that cannot be iterated. *)
Inductive errors_prop :=
| ErrorsAbsent
| ErrorsList (l : list ErrorEntry)
| ErrorsNotIterable.

Record Failure := {
  own : ErrorEntry;
  errors : errors_prop
}.

Inductive exn :=
| TypeError (msg : string)
| BundlerFailure (f : Failure)
| Rejected (reason : string).

Inductive result (A : Type) :=
| Ok (a : A)
| Throw (e : exn).

Arguments Ok {A} a.
Arguments Throw {A} e.

(** Types that belong to the collaborators and stay opaque here. *)
Class Opaque := {
  RollupConfig : Type;        (* result of getRollupConfig *)
  RollupBuild : Type;         (* result of rollup.rollup *)
  RollupWatchOptions : Type;  (* argument of rollup.watch *)
  WatchOptions : Type;        (* chokidar options *)
  Structured : Type           (* a storage value that is not a string *)
}.

Section Model.

Context {opaque : Opaque}.

Inductive storage_value :=
| VString (s : string)
| VStructured (v : Structured).

Record NitroOptions := {
  dev : bool;
  preset : string;
  rootDir : string;
  srcDir : string;
  buildDir : string;
  output_dir : string;
  output_publicDir : string;
  output_serverDir : string;
  scanDirs : list string;
  handlers : list NitroEventHandler;
  bundledStorage : list string;
  serverAssets : list ServerAsset;
  watchOptions : WatchOptions;
  typescript_generateTsConfig : bool;
  typescript_internalPaths : bool;
  commands_preview : option string;
  commands_deploy : option string;
  logLevel : N
}.

(** The build context.  [unimport] holds, when the auto-import
    collaborator is present, the text its [generateTypeDeclarations]
    returns. *)
Record Nitro := {
  options : NitroOptions;
  scannedHandlers : list NitroEventHandler;
  unimport : option string
}.

(** [tsconfig.json]: the constant compiler options are left out, the
    computed parts are kept. *)
Record TSConfig := {
  paths : list (string * list string);
  include : list string
}.

Record BuildInfo := {
  date : string;
  info_preset : string;
  preview : option string;
  deploy : option string
}.

(** Content handed to a file write: text, or the JSON serialisation
    (two-space indent) of a record. *)
Inductive file_data :=
| Text (s : string)
| TsConfigJson (c : TSConfig)
| BuildInfoJson (b : BuildInfo).

Inductive log_level := LogStart | LogSuccess | LogError.

(** Effects on the collaborators, in the order they are issued. *)
Inductive event :=
| EScanHandlers
| EWriteFile (file : string) (contents : file_data)
| EMkdir (d : string)
| EFsWriteFile (file : string) (data : string)
| ELog (level : log_level) (msg : string)
| ECallHook (name : string)
| ERollup (cfg : RollupConfig)
| EBundleWrite (b : RollupBuild) (cfg : RollupConfig)
| EPrintFSTree (d : string)
| ERollupWatch (h : nat) (o : RollupWatchOptions)
| ERollupWatcherClose (h : nat)
| EChokidarWatch (patterns : list string)
| EReloadWatcherClose
| EHookRegister (name : string).

Record World := {
  nitro : Nitro;
  trace : list event
}.

(** *** The monad of asynchronous functions *)

Definition M (A : Type) : Type := World -> result A * World.

Definition ret {A} (a : A) : M A := fun w => (Ok a, w).

Definition bind {A B} (m : M A) (k : A -> M B) : M B :=
  fun w =>
    match m w with
    | (Ok a, w') => k a w'
    | (Throw e, w') => (Throw e, w')
    end.

Definition throw {A} (e : exn) : M A := fun w => (Throw e, w).

(** [try { m } catch {}] *)
Definition try_ignore (m : M unit) : M unit :=
  fun w =>
    match m w with
    | (Ok _, w') => (Ok tt, w')
    | (Throw _, w') => (Ok tt, w')
    end.

Definition emit (e : event) : M unit :=
  fun w => (Ok tt, {| nitro := nitro w; trace := trace w ++ [e] |}).

Definition get_nitro : M Nitro := fun w => (Ok (nitro w), w).

Definition set_nitro (n : Nitro) : M unit :=
  fun w => (Ok tt, {| nitro := n; trace := trace w |}).

Definition lift {A} (r : result A) : M A := fun w => (r, w).

Definition when (b : bool) (m : M unit) : M unit :=
  if b then m else ret tt.

End Model.

Declare Scope async_scope.
Delimit Scope async_scope with async.
Notation "x <- m ;; k" := (bind m (fun x => k))
  (at level 61, m at next level, right associativity) : async_scope.
Notation "m ;; k" := (bind m (fun _ => k))
  (at level 61, right associativity) : async_scope.

(** ** Collaborators

    Functions of imported packages and of other files of the repository.
    The path functions are total on strings; what [isAbsolute] and
    [relative] do when the identifier is [undefined] is left to the
    library ([None]: the call throws). *)
Class Externals `{Opaque} := {
  (* pathe *)
  join : list string -> string;
  resolve : list string -> string;
  relative : string -> string -> string;
  dirname : string -> string;
  isAbsolute : string -> bool;
  isAbsolute_undefined : option bool;
  relative_undefined : string -> option string;
  (* process.cwd(), new Date() *)
  cwd : string;
  now : string;
  (* ./dirs and ./scan *)
  runtimeDir : string;
  GLOB_SCAN_PATTERN : string;
  (* built-ins *)
  trim : string -> string;
  JSON_stringify : Structured -> string;
  (* ./rollup/config, ./scan, ./storage, the hook bus *)
  getRollupConfig : Nitro -> RollupConfig;
  scanHandlers : Nitro -> result Nitro;
  snapshotStorage : Nitro -> result (list (string * storage_value));
  callHook : string -> Nitro -> result Nitro;
  (* rollup.rollup: a build, or the value the promise is rejected with *)
  rollup_rollup : RollupConfig -> Nitro -> Failure + RollupBuild;
  (* defu(rollupConfig, { watch: { chokidar: watchOptions } }) *)
  defu_watch : RollupConfig -> WatchOptions -> RollupWatchOptions
}.

Section Build.

Context `{ext : Externals}.
Local Open Scope async_scope.

Definition scan : M unit :=
  emit EScanHandlers ;;
  n <- get_nitro ;;
  n' <- lift (scanHandlers n) ;;
  set_nitro n'.

Definition call_hook (name : string) : M unit :=
  emit (ECallHook name) ;;
  n <- get_nitro ;;
  n' <- lift (callHook name n) ;;
  set_nitro n'.

(** *** writeTypes *)

Definition middleware (n : Nitro) : list NitroEventHandler :=
  scannedHandlers n ++ handlers (options n).

Definition relativePath (n : Nitro) (h : string) : string :=
  Js.strip_extension (relative (join [buildDir (options n); "types"]) h).

Definition type_expr (rel : string) : string :=
  "Awaited<ReturnType<typeof import('" ++ rel ++ "').default>>".

(** The [for] loop over [middleware], started with the object built so
    far.  For a route that is not yet an own property, the read
    [routeTypes[mw.route]] reaches [Object.prototype]: an inherited
    member is truthy, is kept by the [||], and has no [push]. *)
Fixpoint collect (n : Nitro) (mws : list NitroEventHandler)
         (routeTypes : Js.object (list string))
  : result (Js.object (list string)) :=
  match mws with
  | [] => Ok routeTypes
  | mw :: rest =>
      match handler mw, route mw with
      | HandlerPath h, Some r =>
          if r =? "" then collect n rest routeTypes
          else
            let ty := type_expr (relativePath n h) in
            match Js.get_own routeTypes r with
            | Some tys => collect n rest (Js.set routeTypes r (tys ++ [ty]))
            | None =>
                if Js.inherited r
                then Throw (TypeError "routeTypes[mw.route].push is not a function")
                else collect n rest (Js.set routeTypes r [ty])
            end
      | _, _ => collect n rest routeTypes
      end
  end.

Definition route_line (e : string * list string) : string :=
  "    '" ++ fst e ++ "': " ++ Js.join " | " (snd e).

Definition autoImportedTypes (n : Nitro) : list string :=
  match unimport n with
  | Some decls => [trim decls]
  | None => []
  end.

(** The array [lines], around the lines of the routes. *)
Definition lines_around (n : Nitro) (route_lines : list string)
  : list string :=
  [ "// Generated by nitro";
    "declare module 'nitropack' {";
    "  type Awaited<T> = T extends PromiseLike<infer U> ? Awaited<U> : T";
    "  interface InternalApi {" ]
  ++ route_lines
  ++ [ "  }"; "}" ]
  ++ autoImportedTypes n
  ++ [ "export {}" ].

Definition manifest_lines (n : Nitro) (routeTypes : Js.object (list string))
  : list string :=
  lines_around n (map route_line (Js.entries routeTypes)).

Definition typesDir (n : Nitro) : string :=
  join [buildDir (options n); "types"].

Definition tsConfig (n : Nitro) : TSConfig :=
  let o := options n in
  {| paths :=
       if typescript_internalPaths o
       then [ ("#internal/nitro", [join [runtimeDir; "index"]]);
              ("#internal/nitro/*", [join [runtimeDir; "*"]]) ]
       else [];
     include :=
       [ "./nitro.d.ts";
         join [relative (typesDir n) (rootDir o); "**/*"] ]
       ++ (if srcDir o =? rootDir o then []
           else [join [relative (typesDir n) (srcDir o); "**/*"]]) |}.

Definition manifest_file (n : Nitro) : string :=
  join [buildDir (options n); "types/nitro.d.ts"].

Definition writeTypes : M unit :=
  n <- get_nitro ;;
  routeTypes <- lift (collect n (middleware n) []) ;;
  emit (EWriteFile (manifest_file n)
          (Text (Js.join Js.nl (manifest_lines n routeTypes)))) ;;
  when (typescript_generateTsConfig (options n))
    (emit (EWriteFile (join [buildDir (options n); "types/tsconfig.json"])
             (TsConfigJson (tsConfig n)))).

(** *** _snapshot *)

Definition snapshot_skipped (n : Nitro) : bool :=
  (length (bundledStorage (options n)) =? 0)%nat
  || (preset (options n) =? "nitro-prerender").

Definition storageDir (n : Nitro) : string :=
  resolve [buildDir (options n); "snapshot"].

Definition push_serverAsset (a : ServerAsset) (n : Nitro) : Nitro :=
  let o := options n in
  {| options :=
       {| dev := dev o; preset := preset o; rootDir := rootDir o;
          srcDir := srcDir o; buildDir := buildDir o;
          output_dir := output_dir o;
          output_publicDir := output_publicDir o;
          output_serverDir := output_serverDir o;
          scanDirs := scanDirs o; handlers := handlers o;
          bundledStorage := bundledStorage o;
          serverAssets := serverAssets o ++ [a];
          watchOptions := watchOptions o;
          typescript_generateTsConfig := typescript_generateTsConfig o;
          typescript_internalPaths := typescript_internalPaths o;
          commands_preview := commands_preview o;
          commands_deploy := commands_deploy o;
          logLevel := logLevel o |};
     scannedHandlers := scannedHandlers n;
     unimport := unimport n |}.

Definition entry_contents (v : storage_value) : string :=
  match v with
  | VString s => s
  | VStructured j => JSON_stringify j
  end.

Definition entry_fsPath (sdir : string) (key : string) : string :=
  join [sdir; Js.replace_colons key].

(** [Promise.all] over the entries: every callback runs up to its
    first [await], so the [mkdir] calls are issued in entry order; each
    write follows the completion of its own [mkdir].  The trace lists
    the writes in the order of their [mkdir] calls. *)
Definition snapshot_events (sdir : string)
           (data : list (string * storage_value)) : list event :=
  map (fun e => EMkdir (dirname (entry_fsPath sdir (fst e)))) data
  ++ map (fun e => EFsWriteFile (entry_fsPath sdir (fst e))
                     (entry_contents (snd e))) data.

Definition emit_all (es : list event) : M unit :=
  fun w => (Ok tt, {| nitro := nitro w; trace := trace w ++ es |}).

Definition _snapshot : M unit :=
  n <- get_nitro ;;
  if snapshot_skipped n then ret tt
  else
    set_nitro (push_serverAsset
                 {| baseName := "nitro:bundled"; dir := storageDir n |} n) ;;
    n' <- get_nitro ;;
    data <- lift (snapshotStorage n') ;;
    emit_all (snapshot_events (storageDir n) data).

End Build.

Section OneShot.

Context `{ext : Externals}.
Local Open Scope async_scope.

(** *** The rejection handler of [rollup.rollup] in [_build] *)

(** [isAbsolute(id) ? relative(process.cwd(), id) : id] *)
Definition error_path (i : option string) : result (option string) :=
  match i with
  | Some s => Ok (Some (if isAbsolute s then relative cwd s else s))
  | None =>
      match isAbsolute_undefined with
      | None => Throw (TypeError "isAbsolute: path is not a string")
      | Some false => Ok None
      | Some true =>
          match relative_undefined cwd with
          | Some p => Ok (Some p)
          | None => Throw (TypeError "relative: path is not a string")
          end
      end
  end.

(** [error.loc || error.location] *)
Definition error_location (e : ErrorEntry) : option Location :=
  match loc e with
  | Some l => Some l
  | None => location e
  end.

Definition with_location (p : option string) (l : option Location)
  : option string :=
  match l with
  | Some l =>
      Some (Js.to_string p ++ ":" ++ Js.show_N (line l)
              ++ ":" ++ Js.show_N (column l))%string
  | None => p
  end.

Definition diagnostic (p : option string) (e : ErrorEntry) : string :=
  ("Rollup error while processing `" ++ Js.to_string p ++ "`")
    ++ Js.nl ++ Js.nl ++ Js.to_string (Js.or_else (text e) (frame e)).

(** The body of the [for] loop, for the rejection value's own [id]. *)
Definition report (own_id : option string) (e : ErrorEntry) : M unit :=
  p <- lift (error_path (Js.or_else (id e) own_id)) ;;
  emit (ELog LogError (diagnostic (with_location p (error_location e)) e)).

Fixpoint report_all (own_id : option string) (es : list ErrorEntry)
  : M unit :=
  match es with
  | [] => ret tt
  | e :: rest => report own_id e ;; report_all own_id rest
  end.

(** ['errors' in _error ? _error.errors : [_error]] *)
Definition underlying (f : Failure) : result (list ErrorEntry) :=
  match errors f with
  | ErrorsAbsent => Ok [own f]
  | ErrorsList l => Ok l
  | ErrorsNotIterable => Throw (TypeError "_error.errors is not iterable")
  end.

Definition format_failure (f : Failure) : M unit :=
  es <- lift (underlying f) ;;
  report_all (id (own f)) es.

Definition on_rollup_error {A} (f : Failure) : M A :=
  try_ignore (format_failure f) ;;
  throw (BundlerFailure f).

(** *** _build *)

Definition rewriteRelativePaths (rOutput input : string) : string :=
  Js.rewrite_relative (String.length input) rOutput "" input.

Definition hint (what : string) (rOutput : string) (cmd : option string)
  : M unit :=
  when (Js.truthy cmd)
    (emit (ELog LogSuccess
             ("You can " ++ what ++ " this build using `"
                ++ rewriteRelativePaths rOutput (Js.to_string cmd) ++ "`")%string)).

Definition _build (rollupConfig : RollupConfig) : M unit :=
  scan ;;
  writeTypes ;;
  _snapshot ;;
  emit (ELog LogStart "Building server...") ;;
  emit (ERollup rollupConfig) ;;
  n0 <- get_nitro ;;
  build <- match rollup_rollup rollupConfig n0 with
           | inr b => ret b
           | inl f => on_rollup_error f
           end ;;
  emit (ELog LogStart "Writing server bundle...") ;;
  emit (EBundleWrite build rollupConfig) ;;
  n <- get_nitro ;;
  let nitroConfigPath := resolve [output_dir (options n); "nitro.json"] in
  let buildInfo :=
    {| date := now;
       info_preset := preset (options n);
       preview := commands_preview (options n);
       deploy := commands_deploy (options n) |} in
  emit (EWriteFile nitroConfigPath (BuildInfoJson buildInfo)) ;;
  emit (ELog LogSuccess "Server built") ;;
  when (1 <? logLevel (options n))%N
    (emit (EPrintFSTree (output_serverDir (options n)))) ;;
  call_hook "compiled" ;;
  n1 <- get_nitro ;;
  let rOutput := relative cwd (output_dir (options n1)) in
  hint "preview" rOutput (preview buildInfo) ;;
  hint "deploy" rOutput (deploy buildInfo).

End OneShot.

Section Watch.

Context `{ext : Externals}.
Local Open Scope async_scope.

(** *** _watch

    The closure variables of [_watch] and the state of the debounced
    [reload].  The debounce helper runs one call at a time:
    [reload_pending] says that a call is waiting (the timer is armed or
    a call arrived while one was running), [reload_at] where the
    running call is suspended. *)

Inductive reload_point :=
| Idle          (* no call is running *)
| Scanning      (* the previous watcher is closed, the scan is awaited *)
| Starting.     (* the scan is done *)

Record Session := {
  world : World;
  rollupConfig : RollupConfig;    (* parameter of _watch *)
  rollupWatcher : option nat;     (* let rollupWatcher *)
  watchers : nat;                 (* watchers created so far *)
  reload_pending : bool;
  reload_at : reload_point;
  reloadWacher_closed : bool
}.

Definition with_world (s : Session) (w : World) : Session :=
  {| world := w; rollupConfig := rollupConfig s;
     rollupWatcher := rollupWatcher s; watchers := watchers s;
     reload_pending := reload_pending s; reload_at := reload_at s;
     reloadWacher_closed := reloadWacher_closed s |}.

Definition at_point (s : Session) (p : reload_point) : Session :=
  {| world := world s; rollupConfig := rollupConfig s;
     rollupWatcher := rollupWatcher s; watchers := watchers s;
     reload_pending := reload_pending s; reload_at := p;
     reloadWacher_closed := reloadWacher_closed s |}.

Definition run {A} (m : M A) (s : Session) : result A * Session :=
  let (r, w) := m (world s) in (r, with_world s w).

(** [if (rollupWatcher) { await rollupWatcher.close() }], at the
    moment the debounce helper starts the call. *)
Definition reload_close (s : Session) : Session :=
  let s' :=
    match rollupWatcher s with
    | Some h => snd (run (emit (ERollupWatcherClose h)) s)
    | None => s
    end in
  {| world := world s'; rollupConfig := rollupConfig s';
     rollupWatcher := rollupWatcher s'; watchers := watchers s';
     reload_pending := false; reload_at := Scanning;
     reloadWacher_closed := reloadWacher_closed s' |}.

(** [await scanHandlers(nitro)]; a rejection ends the call. *)
Definition reload_scan (s : Session) : result unit * Session :=
  match run scan s with
  | (Ok _, s') => (Ok tt, at_point s' Starting)
  | (Throw e, s') => (Throw e, at_point s' Idle)
  end.

(** [startRollupWatcher(nitro, rollupConfig)]: the options handed to
    [rollup.watch].  The listener it registers on the watcher reports
    the bundler's own events and is not modelled. *)
Definition watch_options (cfg : RollupConfig) (n : Nitro)
  : RollupWatchOptions :=
  defu_watch cfg (watchOptions (options n)).

(** [rollupWatcher = startRollupWatcher(nitro, rollupConfig)] and
    [await writeTypes(nitro)]. *)
Definition reload_start (s : Session) : result unit * Session :=
  let h := watchers s in
  let o := watch_options (rollupConfig s) (nitro (world s)) in
  let s1 :=
    {| world := snd (emit (ERollupWatch h o) (world s));
       rollupConfig := rollupConfig s;
       rollupWatcher := Some h; watchers := S h;
       reload_pending := reload_pending s; reload_at := Idle;
       reloadWacher_closed := reloadWacher_closed s |} in
  run writeTypes s1.

(** One whole call of the function wrapped by [debounce]. *)
Definition reload (s : Session) : result unit * Session :=
  match reload_scan (reload_close s) with
  | (Ok _, s') => reload_start s'
  | (Throw e, s') => (Throw e, s')
  end.

Definition watchPatterns (n : Nitro) : list string :=
  flat_map (fun d => [ join [d; "api"];
                       join [d; "routes"];
                       join [d; "middleware"; GLOB_SCAN_PATTERN] ])
           (scanDirs (options n)).

Definition watchReloadEvents : list string :=
  ["add"; "addDir"; "unlink"; "unlinkDir"].

Definition watchReloadEvents_has (event : string) : bool :=
  existsb (String.eqb event) watchReloadEvents.

(** A call of the debounced [reload]. *)
Definition request_reload (s : Session) : Session :=
  {| world := world s; rollupConfig := rollupConfig s;
     rollupWatcher := rollupWatcher s; watchers := watchers s;
     reload_pending := true; reload_at := reload_at s;
     reloadWacher_closed := reloadWacher_closed s |}.

(** The listener of the outer watcher: [.on('all', (event) => ...)] *)
Definition on_all (event : string) (s : Session) : Session :=
  if watchReloadEvents_has event then request_reload s else s.

(** The listener registered for the hook [close]. *)
Definition on_close (s : Session) : result unit * Session :=
  match rollupWatcher s with
  | None =>
      (Throw (TypeError
                "Cannot read properties of undefined (reading 'close')"), s)
  | Some h =>
      let w := snd (emit_all [ERollupWatcherClose h; EReloadWatcherClose]
                      (world s)) in
      (Ok tt,
       {| world := w; rollupConfig := rollupConfig s;
          rollupWatcher := rollupWatcher s; watchers := watchers s;
          reload_pending := reload_pending s; reload_at := reload_at s;
          reloadWacher_closed := true |})
  end.

(** [_watch] up to its final [await reload()]. *)
Definition _watch (w : World) (cfg : RollupConfig) : Session :=
  {| world := snd (emit_all [ EChokidarWatch (watchPatterns (nitro w));
                              EHookRegister "close" ] w);
     rollupConfig := cfg;
     rollupWatcher := None;
     watchers := 0;
     reload_pending := true;
     reload_at := Idle;
     reloadWacher_closed := false |}.

(** What happens next in a session: the debounce helper starts or
    continues the call of [reload], the outer watcher reports an event,
    or the hook [close] is called. *)
Inductive step : Session -> Session -> Prop :=
| step_reload_close s :
    reload_at s = Idle -> reload_pending s = true ->
    step s (reload_close s)
| step_reload_scan s :
    reload_at s = Scanning ->
    step s (snd (reload_scan s))
| step_reload_start s :
    reload_at s = Starting ->
    step s (snd (reload_start s))
| step_fs_event s event :
    reloadWacher_closed s = false ->
    step s (on_all event s)
| step_close s :
    step s (snd (on_close s)).

Inductive steps : Session -> Session -> Prop :=
| steps_refl s : steps s s
| steps_next s1 s2 s3 : steps s1 s2 -> step s2 s3 -> steps s1 s3.

(** *** build *)

Inductive outcome :=
| Built (r : result unit) (w : World)
| Watching (s : Session).

Definition build (w : World) : outcome :=
  let rollupConfig := getRollupConfig (nitro w) in
  match call_hook "rollup:before" w with
  | (Throw e, w') => Built (Throw e) w'
  | (Ok _, w') =>
      if dev (options (nitro w'))
      then Watching (_watch w' rollupConfig)
      else let (r, w'') := _build rollupConfig w' in Built r w''
  end.

(** The watchers that are open after a trace. *)
Fixpoint remove_watcher (h : nat) (l : list nat) : list nat :=
  match l with
  | [] => []
  | x :: l' => if (x =? h)%nat then remove_watcher h l' else x :: remove_watcher h l'
  end.

Definition after_event (open : list nat) (e : event) : list nat :=
  match e with
  | ERollupWatch h _ => open ++ [h]
  | ERollupWatcherClose h => remove_watcher h open
  | _ => open
  end.

Definition open_watchers (t : list event) : list nat :=
  fold_left after_event t [].

End Watch.

(** ** What the type manifest should list

    The reading of the handler list against which [writeTypes] is
    compared: the descriptors that contribute, their routes in order of
    first appearance, and for each route the type expressions of its
    handlers in order. *)

Section Discovery.

Context `{ext : Externals}.

(** Route and module path of a descriptor that has both. *)
Definition contribution (mw : NitroEventHandler) : option (string * string) :=
  match handler mw, route mw with
  | HandlerPath h, Some r => if r =? "" then None else Some (r, h)
  | _, _ => None
  end.

Definition contributions (mws : list NitroEventHandler)
  : list (string * string) :=
  flat_map (fun mw => match contribution mw with
                      | Some c => [c]
                      | None => []
                      end) mws.

(** The strings of [rs] that are not in [seen], each at its first
    appearance. *)
Fixpoint first_seen (seen rs : list string) : list string :=
  match rs with
  | [] => []
  | r :: rest =>
      if existsb (String.eqb r) seen then first_seen seen rest
      else r :: first_seen (seen ++ [r]) rest
  end.

Definition types_for (n : Nitro) (r : string) (cs : list (string * string))
  : list string :=
  map (fun c => type_expr (relativePath n (snd c)))
      (filter (fun c => fst c =? r) cs).

Definition discovery_routes (n : Nitro) : list string :=
  first_seen [] (map fst (contributions (middleware n))).

Definition discovery_entries (n : Nitro) : list (string * list string) :=
  map (fun r => (r, types_for n r (contributions (middleware n))))
      (discovery_routes n).

(** The manifest with one line per route, in discovery order. *)
Definition discovery_manifest (n : Nitro) : string :=
  Js.join Js.nl (lines_around n (map route_line (discovery_entries n))).

(** A route that is neither an array index nor the name of a member
    of [Object.prototype]. *)
Definition plain_route (r : string) : bool :=
  negb (Js.is_array_index r) && negb (Js.inherited r).

Definition plain_routes (n : Nitro) : Prop :=
  Forall (fun c => plain_route (fst c) = true)
         (contributions (middleware n)).

(** The events a computation adds to the trace. *)
Definition written {A} (m : M A) (w : World) : list event :=
  skipn (length (trace w)) (trace (snd (m w))).

(** The effect of one contributing descriptor on the object of
    [writeTypes]. *)
Definition push_type (n : Nitro) (o : Js.object (list string))
           (c : string * string) : Js.object (list string) :=
  let ty := type_expr (relativePath n (snd c)) in
  match Js.get_own o (fst c) with
  | Some tys => Js.set o (fst c) (tys ++ [ty])
  | None => Js.set o (fst c) [ty]
  end.

End Discovery.

Definition keys {V : Type} (o : Js.object V) : list string := map fst o.


(** ** Auxiliary notions for the statements *)

Section Notions.

Context `{ext : Externals}.

(** The file writes of [writeTypes] for a context, given the object
    its loop built. *)
Definition types_events (n : Nitro) (routeTypes : Js.object (list string))
  : list event :=
  EWriteFile (manifest_file n)
    (Text (Js.join Js.nl (manifest_lines n routeTypes)))
  :: (if typescript_generateTsConfig (options n)
      then [EWriteFile (join [buildDir (options n); "types/tsconfig.json"])
              (TsConfigJson (tsConfig n))]
      else []).

(** What one whole call of [reload] adds to the trace, read off the
    four stages: close, scan, start, write types. *)
Definition close_stage (s : Session) : list event :=
  match rollupWatcher s with
  | Some h => [ERollupWatcherClose h]
  | None => []
  end.

Definition start_stage (s : Session) (n : Nitro) : list event :=
  [ERollupWatch (watchers s) (watch_options (rollupConfig s) n)].

Definition types_stage (n : Nitro) : list event :=
  match collect n (middleware n) [] with
  | Ok routeTypes => types_events n routeTypes
  | Throw _ => []
  end.

(** At no point of the trace is more than one watcher open. *)
Definition singular (t : list event) : Prop :=
  forall p q, t = p ++ q -> length (open_watchers p) <= 1.

(** The stages of [_build] up to the call of the bundler. *)
Definition before_bundling (cfg : RollupConfig) : M unit :=
  (scan ;; writeTypes ;; _snapshot ;;
   emit (ELog LogStart "Building server...") ;;
   emit (ERollup cfg))%async.


(** *** The diagnostics the specification asks for

    Written from the words of the specification, without the
    functions of the embedding of [_build]. *)

(** A string that is there: neither [undefined] nor empty. *)
Definition present (v : option string) : option string :=
  match v with
  | Some (String c r) => Some (String c r)
  | _ => None
  end.

(** The underlying errors of a rejection value: the entries of its
    [errors], or the rejection value itself when it has none. *)
Definition failure_errors (f : Failure) : option (list ErrorEntry) :=
  match errors f with
  | ErrorsAbsent => Some [own f]
  | ErrorsList l => Some l
  | ErrorsNotIterable => None
  end.

(** The file identifier of an underlying error: its own when it has
    one, the one of the rejection value otherwise. *)
Definition error_file (f : Failure) (e : ErrorEntry) : option string :=
  match present (id e) with
  | Some i => Some i
  | None => id (own f)
  end.

(** The path shown for a file identifier: relative to the working
    directory when absolute; [undefined] when there is none. *)
Definition shown_path (i : option string) : string :=
  match i with
  | Some s => if isAbsolute s then relative cwd s else s
  | None => "undefined"
  end.

(** The position of an underlying error, found under [loc] or under
    [location]. *)
Definition error_position (e : ErrorEntry) : option Location :=
  match loc e, location e with
  | Some l, _ => Some l
  | None, Some l => Some l
  | None, None => None
  end.

Definition shown_position (l : option Location) : string :=
  match l with
  | Some l => ":" ++ Js.show_N (line l) ++ ":" ++ Js.show_N (column l)
  | None => ""
  end.

(** The text of an underlying error, or else its frame. *)
Definition error_body (e : ErrorEntry) : string :=
  match present (text e), frame e with
  | Some t, _ => t
  | None, Some fr => fr
  | None, None => "undefined"
  end.

Definition stated_diagnostic (f : Failure) (e : ErrorEntry) : string :=
  "Rollup error while processing `"
    ++ shown_path (error_file f e) ++ shown_position (error_position e)
    ++ "`" ++ Js.nl ++ Js.nl ++ error_body e.

Definition stated_report (f : Failure) (e : ErrorEntry) : event :=
  ELog LogError (stated_diagnostic f e).

(** An event of the stage after the bundler: the bundle, the build
    record, a message of success (the hints are such messages), the
    printed tree, the hook [compiled]. *)
Definition is_output (e : event) : bool :=
  match e with
  | EBundleWrite _ _ => true
  | EWriteFile _ (BuildInfoJson _) => true
  | ELog LogSuccess _ => true
  | EPrintFSTree _ => true
  | ECallHook _ => true
  | _ => false
  end.

(** The context with the snapshot directory registered. *)
Definition registered (n : Nitro) : Nitro :=
  push_serverAsset {| baseName := "nitro:bundled"; dir := storageDir n |} n.

End Notions.

(** ** A small instance of the collaborators

    Used to run the model on examples. *)

Module Demo.

Definition dq : string := String (ascii_of_nat 34) EmptyString.

#[export] Instance opaque : Opaque := {|
  RollupConfig := nat;
  RollupBuild := unit;
  RollupWatchOptions := nat * bool;
  WatchOptions := bool;
  Structured := list (string * N)
|}.

Fixpoint strip_prefix (p s : string) : option string :=
  match p, s with
  | EmptyString, _ => Some s
  | String a p', String b s' =>
      if (a =? b)%char then strip_prefix p' s' else None
  | _, _ => None
  end.

Definition below (from to : string) : string :=
  match strip_prefix (from ++ "/") to with
  | Some r => r
  | None => to
  end.

Fixpoint drop_segment (rev_chars : list ascii) : list ascii :=
  match rev_chars with
  | [] => []
  | c :: r => if (c =? "/")%char then r else drop_segment r
  end.

Definition parent (p : string) : string :=
  string_of_list_ascii (rev (drop_segment (rev (list_ascii_of_string p)))).

Definition stringify (v : list (string * N)) : string :=
  "{" ++ String.concat ","
           (map (fun e => (dq ++ fst e ++ dq ++ ":"
                             ++ Js.show_N (snd e))%string) v)
      ++ "}".

Definition found : NitroEventHandler :=
  {| route := Some "/api/hello"; handler := HandlerPath "/work/api/hello.ts" |}.

Definition rescan (n : Nitro) : Nitro :=
  {| options := options n; scannedHandlers := [found];
     unimport := unimport n |}.

Definition stored : list (string * storage_value) :=
  [ ("a:b", VString "hello"); ("c:d", VStructured [("x", 1%N)]) ].

(** The collaborators, for a bundler that answers with [bundle]. *)
Definition externals (bundle : Failure + unit) : Externals := {|
  join := String.concat "/";
  resolve := String.concat "/";
  relative := below;
  dirname := parent;
  isAbsolute := String.prefix "/";
  isAbsolute_undefined := Some false;
  relative_undefined := fun _ => None;
  cwd := "/work";
  now := "2022-04-01T00:00:00.000Z";
  runtimeDir := "/work/node_modules/nitropack/dist/runtime";
  GLOB_SCAN_PATTERN := "**/*.{ts,mjs,js,cjs}";
  trim := fun s => s;
  JSON_stringify := stringify;
  getRollupConfig := fun n => length (scannedHandlers n ++ handlers (options n));
  scanHandlers := fun n => Ok (rescan n);
  snapshotStorage := fun _ => Ok stored;
  callHook := fun _ n => Ok n;
  rollup_rollup := fun _ _ => bundle;
  defu_watch := fun cfg o => (cfg, o)
|}.

(** The collaborators with a bundler that succeeds. *)
Definition working : Externals := externals (inr tt).

Definition context (is_dev : bool) (pre : string)
           (declared : list NitroEventHandler) (mounts : list string)
  : Nitro :=
  {| options :=
       {| dev := is_dev; preset := pre;
          rootDir := "/work"; srcDir := "/work";
          buildDir := "/work/.nitro";
          output_dir := "/work/.output";
          output_publicDir := "/work/.output/public";
          output_serverDir := "/work/.output/server";
          scanDirs := ["/work"];
          handlers := declared;
          bundledStorage := mounts;
          serverAssets := [];
          watchOptions := false;
          typescript_generateTsConfig := true;
          typescript_internalPaths := false;
          commands_preview := Some "node ./server/index.mjs";
          commands_deploy := None;
          logLevel := 3%N |};
     scannedHandlers := [];
     unimport := None |}.

Definition start (n : Nitro) : World := {| nitro := n; trace := [] |}.

Definition declare (r h : string) : NitroEventHandler :=
  {| route := Some r; handler := HandlerPath h |}.

(** Two handlers of one route, as in the end-to-end scenario. *)
Definition status_twice : Nitro :=
  context false "node-server"
    [declare "/status" "/work/a.ts"; declare "/status" "/work/b.ts"] [].

(** Routes that are array indices. *)
Definition numeric_routes : Nitro :=
  context false "node-server"
    [declare "2" "/work/b.ts"; declare "1" "/work/a.ts"] [].

(** A route that is the name of a member of [Object.prototype]. *)
Definition inherited_route : Nitro :=
  context false "node-server" [declare "constructor" "/work/a.ts"] [].

Definition with_storage (pre : string) : Nitro :=
  context false pre [] ["data"].

Definition dev_context : Nitro := context true "nitro-dev" [] [].

Definition entry (i : option string) (l : option Location)
           (t : option string) : ErrorEntry :=
  {| id := i; loc := l; location := None; text := t; frame := None |}.

(** A rejection value with four underlying errors: one with its own
    identifier, position and text; one that has only a frame, a
    position under [location] and no identifier; one whose identifier
    and text are empty; one whose identifier is no absolute path. *)
Definition mixed_errors : Failure :=
  {| own := entry (Some "/work/src/entry.ts") None (Some "Build failed");
     errors :=
       ErrorsList
         [ entry (Some "/work/api/hello.ts")
                 (Some {| line := 3; column := 7 |})
                 (Some "Unexpected token");
           {| id := None; loc := None;
              location := Some {| line := 10; column := 2 |};
              text := None; frame := Some "> 10 | import x" |};
           {| id := Some ""; loc := None; location := None;
              text := Some ""; frame := None |};
           entry (Some "virtual:handlers") None (Some "Cannot resolve") ] |}.

(** A rejection value without [errors] and without identifier. *)
Definition single_error : Failure :=
  {| own := {| id := None; loc := Some {| line := 1; column := 0 |};
               location := Some {| line := 5; column := 5 |};
               text := None; frame := Some "> 1 | export" |};
     errors := ErrorsAbsent |}.

(** A rejection value whose [errors] cannot be iterated. *)
Definition odd_errors : Failure :=
  {| own := entry (Some "/work/x.ts") None (Some "Build failed");
     errors := ErrorsNotIterable |}.

End Demo.

(** ** Statements about single entries *)

Section EntryStatements.

Context `{ext : Externals}.

(** What replacing every colon by a slash means, character by
    character. *)
Definition colon_to_slash (c : ascii) : ascii :=
  if (c =? ":")%char then "/"%char else c.

(** The entry [(key, v)] of the snapshot reaches the disk: its file
    lies under the snapshot directory at the key with slashes for
    colons, holds the string or the serialised value, and its parent
    directory is created before it is written. *)
Definition entry_written (w : World) (key : string) (v : storage_value)
  : Prop :=
  exists rel content,
    (forall i, String.get i rel
               = option_map colon_to_slash (String.get i key))
    /\ match v with
       | VString s => content = s
       | VStructured j => content = JSON_stringify j
       end
    /\ let file := join [resolve [buildDir (options (nitro w)); "snapshot"];
                         rel] in
       exists before between after,
         written _snapshot w
         = before ++ EMkdir (dirname file)
             :: between ++ EFsWriteFile file content :: after.

End EntryStatements.

(** An event that opens or closes no bundler watcher. *)
Definition quiet `{Opaque} (e : event) : bool :=
  match e with
  | ERollupWatch _ _ | ERollupWatcherClose _ => false
  | _ => true
  end.

Section SessionInvariants.

Context `{ext : Externals}.

(** Of the events since the session started from [w0], at most one
    watcher is open at any point; an open watcher is the one held in
    [rollupWatcher], and none is open while a call of [reload] is
    between its close and its start. *)
Definition session_ok (w0 : World) (s : Session) : Prop :=
  exists evs,
    trace (world s) = trace w0 ++ evs
    /\ singular evs
    /\ (open_watchers evs = []
        \/ (reload_at s = Idle
            /\ exists h, rollupWatcher s = Some h
                         /\ open_watchers evs = [h])).

(** Every bundler-watch session among [evs] was started with [cfg],
    completed by the watch options of some context. *)
Definition started_with (cfg : RollupConfig) (evs : list event) : Prop :=
  forall h o, In (ERollupWatch h o) evs ->
              exists n, o = watch_options cfg n.

End SessionInvariants.

(** ** Further parts of [build.ts] *)

From Stdlib Require Import ZArith Permutation Sorted.

Set Implicit Arguments.

(** *** The listener of [startRollupWatcher]

    [watcher.on('event', ...)]: the events of a bundler watcher, the
    variable [start] of the closure, and what the listener does.  The
    hooks are called without [await]; only the calls are recorded.  Each
    event comes with the value [Date.now()] has when the listener runs. *)

Inductive watcher_event :=
| START
| BUNDLE_START
| BUNDLE_END
| END
| ERROR (error : Failure).

Inductive listener_effect :=
| HookCall (name : string)
| LoggerSuccess (args : list string)
| LoggerError (label : string) (error : Failure).

Module Listener.

Definition show_Z (z : Z) : string :=
NilZero.string_of_int (Z.to_int z).

(** [start ? `in ${Date.now() - start} ms` : ''] *)
Definition elapsed (start : option Z) (now : Z) : string :=
match start with
| Some t =>
    if (t =? 0)%Z then ""
    else ("in " ++ show_Z (now - t) ++ " ms")%string
| None => ""
end.

(** The [switch (event.code)]; an event without a case does nothing. *)
Definition on_event (now : Z) (ev : watcher_event) (start : option Z)
: option Z * list listener_effect :=
match ev with
| START => (start, [])
| BUNDLE_START => (Some now, [])
| END =>
    (start,
     [ HookCall "compiled";
       LoggerSuccess ["Nitro built"; elapsed start now];
       HookCall "dev:reload" ])
| ERROR error => (start, [LoggerError "Rollup error: " error])
| BUNDLE_END => (start, [])
end.

(** The listener over the events of a watcher, in order. *)
Fixpoint listen (evs : list (Z * watcher_event)) (start : option Z)
: option Z * list listener_effect :=
match evs with
| [] => (start, [])
| (now, ev) :: rest =>
    let (start', out) := on_event now ev start in
    let (start'', out') := listen rest start' in
    (start'', out ++ out')
end.

Definition hook_calls (out : list listener_effect) : list string :=
flat_map (fun e => match e with HookCall name => [name] | _ => [] end) out.

Definition is_END (ev : watcher_event) : bool :=
match ev with END => true | _ => false end.

Definition is_BUNDLE_START (ev : watcher_event) : bool :=
match ev with BUNDLE_START => true | _ => false end.

End Listener.

(** *** Notions for further statements *)

Section MoreNotions.

Context `{ext : Externals}.

(** The loop of [writeTypes] seen from the contributing descriptors
  only. *)
Fixpoint push_all (n : Nitro) (cs : list (string * string))
       (o : Js.object (list string)) : result (Js.object (list string)) :=
match cs with
| [] => Ok o
| c :: rest =>
    match Js.get_own o (fst c) with
    | Some _ => push_all n rest (push_type n o c)
    | None =>
        if Js.inherited (fst c)
        then Throw (TypeError "routeTypes[mw.route].push is not a function")
        else push_all n rest (push_type n o c)
    end
end.

Definition has_inherited_route (n : Nitro) : bool :=
existsb (fun c => Js.inherited (fst c)) (contributions (middleware n)).

(** The numeric value of a route that is an array index. *)
Definition route_index (r : string) : N :=
match Js.array_index r with
| Some i => i
| None => 0
end.

Definition index_route (e : string * list string) : bool :=
Js.is_array_index (fst e).

Definition by_index (a b : string * list string) : Prop :=
(route_index (fst a) <= route_index (fst b))%N.

Definition by_fst {V} (a b : N * (string * V)) : Prop := (fst a <= fst b)%N.

(** The hints at the end of [_build]. *)
Definition hint_events (rOutput : string) (cmd_preview cmd_deploy : option string)
: list event :=
(if Js.truthy cmd_preview
 then [ELog LogSuccess
         ("You can preview this build using `"
            ++ rewriteRelativePaths rOutput (Js.to_string cmd_preview)
            ++ "`")%string]
 else [])
++ (if Js.truthy cmd_deploy
    then [ELog LogSuccess
            ("You can deploy this build using `"
               ++ rewriteRelativePaths rOutput (Js.to_string cmd_deploy)
               ++ "`")%string]
    else []).

(** What [_build] adds to the trace between the answer of the bundler
  and the hook [compiled], for the context [n] it then has. *)
Definition output_events (cfg : RollupConfig) (b : RollupBuild) (n : Nitro)
: list event :=
[ ELog LogStart "Writing server bundle...";
  EBundleWrite b cfg;
  EWriteFile (resolve [output_dir (options n); "nitro.json"])
    (BuildInfoJson
       {| date := now;
          info_preset := preset (options n);
          preview := commands_preview (options n);
          deploy := commands_deploy (options n) |});
  ELog LogSuccess "Server built" ]
++ (if (1 <? logLevel (options n))%N
    then [EPrintFSTree (output_serverDir (options n))]
    else [])
++ [ECallHook "compiled"].



Definition is_bundle_write (e : event) : bool :=
match e with EBundleWrite _ _ => true | _ => false end.

Definition is_watch_start (e : event) : bool :=
match e with ERollupWatch _ _ => true | _ => false end.

(** What may still start a watcher: a pending call and a running call
  of [reload]. *)
Definition reloads_due (s : Session) : nat :=
(if reload_pending s then 1 else 0)
+ (match reload_at s with Idle => 0 | _ => 1 end).

End MoreNotions.

(** *** More instances: errors without identifier, stages that reject *)

Module Strict.

#[local] Existing Instance Demo.opaque.


(** Collaborators whose scan, storage or hook reject. *)
Definition failing (scan_fails storage_fails hook_fails : bool)
: @Externals Demo.opaque := {|
join := String.concat "/";
resolve := String.concat "/";
relative := Demo.below;
dirname := Demo.parent;
isAbsolute := String.prefix "/";
isAbsolute_undefined := Some false;
relative_undefined := fun _ => None;
cwd := "/work";
now := "2022-04-01T00:00:00.000Z";
runtimeDir := "/work/node_modules/nitropack/dist/runtime";
GLOB_SCAN_PATTERN := "**/*.{ts,mjs,js,cjs}";
trim := fun s => s;
JSON_stringify := Demo.stringify;
getRollupConfig := fun n => length (scannedHandlers n ++ handlers (options n));
scanHandlers :=
  fun n => if scan_fails then Throw (Rejected "scan") else Ok (Demo.rescan n);
snapshotStorage :=
  fun _ => if storage_fails then Throw (Rejected "storage") else Ok Demo.stored;
callHook :=
  fun _ n => if hook_fails then Throw (Rejected "hook") else Ok n;
rollup_rollup := fun _ _ => inr tt;
defu_watch := fun cfg o => (cfg, o)
|}.

(** A scan that succeeds once: it rejects when handlers have been
  scanned before. *)
Definition flaky : @Externals Demo.opaque := {|
join := String.concat "/";
resolve := String.concat "/";
relative := Demo.below;
dirname := Demo.parent;
isAbsolute := String.prefix "/";
isAbsolute_undefined := Some false;
relative_undefined := fun _ => None;
cwd := "/work";
now := "2022-04-01T00:00:00.000Z";
runtimeDir := "/work/node_modules/nitropack/dist/runtime";
GLOB_SCAN_PATTERN := "**/*.{ts,mjs,js,cjs}";
trim := fun s => s;
JSON_stringify := Demo.stringify;
getRollupConfig := fun n => length (scannedHandlers n ++ handlers (options n));
scanHandlers :=
  fun n => match scannedHandlers n with
           | [] => Ok (Demo.rescan n)
           | _ => Throw (Rejected "scan")
           end;
snapshotStorage := fun _ => Ok Demo.stored;
callHook := fun _ n => Ok n;
rollup_rollup := fun _ _ => inr tt;
defu_watch := fun cfg o => (cfg, o)
|}.

End Strict.

Definition count_starts `{Opaque} (evs : list event) : nat :=
  length (filter (fun e => match e with ERollupWatch _ _ => true | _ => false end)
                 evs).

(** *** Notions for [rewriteRelativePaths] *)




Unset Implicit Arguments.

(** ** Lemmas on objects *)

Section ObjectFacts.

Variable V : Type.
Implicit Types (o : Js.object V) (k : string) (v : V).

Lemma get_own_set o k v k' :
  Js.get_own (Js.set o k v) k' = if k =? k' then Some v else Js.get_own o k'.
Proof.
  induction o as [|[k0 v0] o IH]; simpl.
  - reflexivity.
  - destruct (String.eqb_spec k0 k) as [->|Hne]; simpl.
    + destruct (k =? k'); reflexivity.
    + rewrite IH. destruct (String.eqb_spec k0 k') as [->|Hne'].
      * destruct (String.eqb_spec k k'); [congruence | reflexivity].
      * reflexivity.
Qed.

Lemma get_own_keys o k :
  existsb (String.eqb k) (keys o)
  = match Js.get_own o k with Some _ => true | None => false end.
Proof.
  unfold keys.
  induction o as [|[k0 v0] o IH]; simpl.
  - reflexivity.
  - rewrite (String.eqb_sym k k0).
    destruct (k0 =? k); simpl; [reflexivity | apply IH].
Qed.

Lemma keys_set o k v :
  keys (Js.set o k v)
  = if existsb (String.eqb k) (keys o) then keys o else keys o ++ [k].
Proof.
  unfold keys.
  induction o as [|[k0 v0] o IH]; simpl.
  - reflexivity.
  - rewrite (String.eqb_sym k k0).
    destruct (k0 =? k) eqn:E; simpl.
    + reflexivity.
    + rewrite IH.
      destruct (existsb (String.eqb k) (map fst o)); reflexivity.
Qed.

(** An object without repeated keys is given by its keys and its
    lookups. *)
Lemma object_by_keys o (d : V) :
  NoDup (keys o) ->
  o = map (fun k => (k, match Js.get_own o k with
                        | Some v => v
                        | None => d
                        end)) (keys o).
Proof.
  induction o as [|[k0 v0] o IH]; simpl; intros Hnd.
  - reflexivity.
  - inversion Hnd as [|? ? Hnotin Hnd']; subst.
    rewrite String.eqb_refl. f_equal.
    rewrite (IH Hnd') at 1.
    apply map_ext_in. intros k Hin.
    destruct (String.eqb_spec k0 k) as [->|Hne]; [contradiction | reflexivity].
Qed.

Lemma named_entries_all o :
  Forall (fun k => Js.is_array_index k = false) (keys o) ->
  Js.named_entries o = o.
Proof.
  induction o as [|[k0 v0] o IH]; simpl; intros HF.
  - reflexivity.
  - inversion HF as [|? ? H0 HF']; subst. unfold Js.named_entries in *.
    simpl. rewrite H0. simpl. f_equal. apply IH, HF'.
Qed.

Lemma index_entries_none o :
  Forall (fun k => Js.is_array_index k = false) (keys o) ->
  Js.index_entries o = [].
Proof.
  induction o as [|[k0 v0] o IH]; simpl; intros HF.
  - reflexivity.
  - inversion HF as [|? ? H0 HF']; subst.
    unfold Js.is_array_index in H0.
    destruct (Js.array_index k0); [discriminate | apply IH, HF'].
Qed.

(** Without array-index keys, enumeration is creation order. *)
Lemma entries_creation_order o :
  Forall (fun k => Js.is_array_index k = false) (keys o) ->
  Js.entries o = o.
Proof.
  intros HF. unfold Js.entries.
  rewrite index_entries_none, named_entries_all by assumption.
  reflexivity.
Qed.

Lemma In_insert_index i e (l : list (N * (string * V))) x :
  In x (Js.insert_index i e l) <-> x = (i, e) \/ In x l.
Proof.
  induction l as [|[j e'] l IH]; simpl.
  - intuition.
  - destruct (i <=? j)%N; simpl; [intuition | rewrite IH; intuition].
Qed.

Lemma In_index_entries o x :
  In x (map snd (Js.index_entries o))
  <-> In x o /\ Js.is_array_index (fst x) = true.
Proof.
  induction o as [|[k0 v0] o IH]; simpl.
  - intuition.
  - unfold Js.is_array_index at 1.
    destruct (Js.array_index k0) eqn:E.
    + rewrite in_map_iff. split.
      * intros [[j e] [<- Hin]]. apply In_insert_index in Hin.
        destruct Hin as [Heq|Hin].
        -- inversion Heq; subst. split; [now left|].
           unfold Js.is_array_index. simpl. now rewrite E.
        -- assert (H : In (snd (j, e)) (map snd (Js.index_entries o)))
             by (apply in_map; exact Hin).
           apply IH in H. simpl in *. intuition.
      * intros [[Heq|Hin] Hidx].
        -- exists (n, x). split; [reflexivity|].
           apply In_insert_index. left. now subst.
        -- assert (H : In x (map snd (Js.index_entries o)))
             by (apply IH; now split).
           apply in_map_iff in H. destruct H as [[j e] [<- Hin']].
           exists (j, e). split; [reflexivity|].
           apply In_insert_index. now right.
    + rewrite IH. split.
      * intuition.
      * intros [[Heq|Hin] Hidx]; [|intuition].
        subst x. unfold Js.is_array_index in Hidx. simpl in Hidx.
        rewrite E in Hidx. discriminate.
Qed.

(** Enumeration lists exactly the own properties. *)
Lemma In_entries o x : In x (Js.entries o) <-> In x o.
Proof.
  unfold Js.entries, Js.named_entries.
  rewrite in_app_iff, In_index_entries, filter_In.
  destruct (Js.is_array_index (fst x)); simpl; intuition congruence.
Qed.

End ObjectFacts.

(** ** The loop of [writeTypes] *)

Section CollectFacts.

Context `{ext : Externals}.
Variable n : Nitro.

Lemma contributions_cons mw mws :
  contributions (mw :: mws)
  = match contribution mw with Some c => [c] | None => [] end
    ++ contributions mws.
Proof. reflexivity. Qed.

Lemma collect_fold mws : forall o,
  Forall (fun c => Js.inherited (fst c) = false) (contributions mws) ->
  collect n mws o = Ok (fold_left (push_type n) (contributions mws) o).
Proof.
  induction mws as [|mw mws IH]; intros o HF.
  - reflexivity.
  - rewrite contributions_cons in *. simpl collect.
    unfold contribution in *.
    destruct (handler mw) as [h|]; [|apply IH, HF].
    destruct (route mw) as [r|]; [|apply IH, HF].
    destruct (r =? ""); [apply IH, HF|].
    simpl in HF. inversion HF as [|? ? Hr HF']; subst. simpl in Hr.
    simpl fold_left. unfold push_type at 2. simpl fst. simpl snd.
    destruct (Js.get_own o r).
    + apply IH, HF'.
    + rewrite Hr. apply IH, HF'.
Qed.

Lemma keys_push o c :
  keys (push_type n o c)
  = if existsb (String.eqb (fst c)) (keys o) then keys o
    else keys o ++ [fst c].
Proof.
  unfold push_type. destruct (Js.get_own o (fst c)); apply keys_set.
Qed.

Lemma keys_fold cs : forall o,
  keys (fold_left (push_type n) cs o)
  = keys o ++ first_seen (keys o) (map fst cs).
Proof.
  induction cs as [|c cs IH]; intros o; simpl.
  - now rewrite app_nil_r.
  - rewrite IH, keys_push.
    destruct (existsb (String.eqb (fst c)) (keys o)).
    + reflexivity.
    + now rewrite <- app_assoc.
Qed.

Lemma first_seen_fresh rs : forall seen r,
  In r (first_seen seen rs) -> ~ In r seen.
Proof.
  induction rs as [|x rs IH]; simpl; intros seen r Hin.
  - contradiction.
  - destruct (existsb (String.eqb x) seen) eqn:E.
    + now apply IH.
    + destruct Hin as [->|Hin].
      * intros Hs.
        assert (existsb (String.eqb r) seen = true) as Ht
            by (apply existsb_exists; exists r; split;
                [exact Hs | apply String.eqb_refl]).
        congruence.
      * apply IH in Hin. intros Hs. apply Hin, in_or_app. now left.
Qed.

Lemma first_seen_NoDup rs : forall seen, NoDup (first_seen seen rs).
Proof.
  induction rs as [|x rs IH]; simpl; intros seen.
  - constructor.
  - destruct (existsb (String.eqb x) seen).
    + apply IH.
    + constructor; [|apply IH].
      intros Hin. apply first_seen_fresh in Hin.
      apply Hin, in_or_app. right. now left.
Qed.

Lemma types_for_cons r c cs :
  types_for n r (c :: cs)
  = (if fst c =? r then [type_expr (relativePath n (snd c))] else [])
    ++ types_for n r cs.
Proof.
  unfold types_for. simpl. destruct (fst c =? r); reflexivity.
Qed.

Lemma get_push o c r :
  Js.get_own (push_type n o c) r
  = if fst c =? r
    then Some (match Js.get_own o r with Some tys => tys | None => [] end
                 ++ [type_expr (relativePath n (snd c))])
    else Js.get_own o r.
Proof.
  unfold push_type.
  destruct (String.eqb_spec (fst c) r) as [<-|Hne].
  - destruct (Js.get_own o (fst c)); rewrite get_own_set, String.eqb_refl;
      reflexivity.
  - destruct (Js.get_own o (fst c)); rewrite get_own_set;
      (destruct (String.eqb_spec (fst c) r); [contradiction | reflexivity]).
Qed.

Lemma get_fold cs : forall o r,
  Js.get_own (fold_left (push_type n) cs o) r
  = match Js.get_own o r, types_for n r cs with
    | Some tys, l => Some (tys ++ l)
    | None, [] => None
    | None, l => Some l
    end.
Proof.
  induction cs as [|c cs IH]; intros o r; simpl fold_left.
  - unfold types_for. simpl. destruct (Js.get_own o r); [|reflexivity].
    now rewrite app_nil_r.
  - rewrite IH, get_push, types_for_cons.
    destruct (fst c =? r); simpl.
    + destruct (Js.get_own o r); simpl; [now rewrite <- app_assoc | reflexivity].
    + reflexivity.
Qed.

(** The object after the loop, started empty: one property per route
    in order of first appearance, holding the type expressions of the
    route's handlers in order. *)
Lemma fold_discovery cs :
  fold_left (push_type n) cs []
  = map (fun r => (r, types_for n r cs)) (first_seen [] (map fst cs)).
Proof.
  pose proof (keys_fold cs []) as Hk. simpl in Hk.
  rewrite (object_by_keys _ (fold_left (push_type n) cs []) []).
  - rewrite Hk. apply map_ext. intros r.
    rewrite get_fold. simpl. now destruct (types_for n r cs).
  - rewrite Hk. apply first_seen_NoDup.
Qed.

Lemma keys_discovery cs :
  keys (map (fun r => (r, types_for n r cs)) (first_seen [] (map fst cs)))
  = first_seen [] (map fst cs).
Proof.
  unfold keys. rewrite map_map. simpl. apply map_id.
Qed.

Lemma first_seen_incl rs : forall seen r,
  In r (first_seen seen rs) -> In r rs.
Proof.
  induction rs as [|x rs IH]; simpl; intros seen r Hin.
  - contradiction.
  - destruct (existsb (String.eqb x) seen).
    + right. eapply IH, Hin.
    + destruct Hin as [->|Hin]; [now left | right; eapply IH, Hin].
Qed.

Lemma first_seen_complete rs : forall seen r,
  In r rs -> ~ In r seen -> In r (first_seen seen rs).
Proof.
  induction rs as [|x rs IH]; simpl; intros seen r Hin Hns.
  - contradiction.
  - destruct (existsb (String.eqb x) seen) eqn:E.
    + destruct Hin as [->|Hin]; [|now apply IH].
      apply existsb_exists in E. destruct E as [y [Hy Heq]].
      apply String.eqb_eq in Heq. subst y. contradiction.
    + destruct (String.eqb_spec x r) as [->|Hne]; [now left|].
      right. apply IH.
      * destruct Hin; [contradiction | assumption].
      * intros H0. apply in_app_or in H0. destruct H0 as [H0|[H0|[]]];
          [contradiction | congruence].
Qed.

End CollectFacts.

(** ** Running computations *)

Section RunFacts.

Context `{ext : Externals}.

Lemma skipn_length_app {A} (t evs : list A) :
  skipn (length t) (t ++ evs) = evs.
Proof.
  induction t as [|x t IH]; simpl; [reflexivity | exact IH].
Qed.

Lemma written_extends {A} (m : M A) w evs :
  trace (snd (m w)) = trace w ++ evs -> written m w = evs.
Proof.
  unfold written. intros ->. apply skipn_length_app.
Qed.

Lemma writeTypes_run w :
  writeTypes w
  = match collect (nitro w) (middleware (nitro w)) [] with
    | Ok routeTypes =>
        (Ok tt, {| nitro := nitro w;
                   trace := trace w ++ types_events (nitro w) routeTypes |})
    | Throw e => (Throw e, w)
    end.
Proof.
  unfold writeTypes, types_events, bind, get_nitro, lift, emit, when, ret.
  destruct (collect (nitro w) (middleware (nitro w)) []); [|reflexivity].
  destruct (typescript_generateTsConfig (options (nitro w))); simpl.
  - now rewrite <- app_assoc.
  - reflexivity.
Qed.

Lemma writeTypes_trace w :
  nitro (snd (writeTypes w)) = nitro w
  /\ trace (snd (writeTypes w)) = trace w ++ types_stage (nitro w).
Proof.
  rewrite writeTypes_run. unfold types_stage.
  destruct (collect (nitro w) (middleware (nitro w)) []); simpl.
  - now split.
  - now rewrite app_nil_r.
Qed.

Lemma plain_not_inherited n :
  plain_routes n ->
  Forall (fun c => Js.inherited (fst c) = false)
         (contributions (middleware n)).
Proof.
  unfold plain_routes, plain_route. apply Forall_impl. intros c Hc.
  apply andb_true_iff in Hc. destruct Hc as [_ Hc].
  now apply negb_true_iff in Hc.
Qed.

Lemma plain_discovery_keys n :
  plain_routes n ->
  Forall (fun k => Js.is_array_index k = false) (keys (discovery_entries n)).
Proof.
  intros Hp. unfold discovery_entries, discovery_routes.
  rewrite keys_discovery. apply Forall_forall. intros r Hr.
  apply first_seen_incl, in_map_iff in Hr. destruct Hr as [c [<- Hc]].
  unfold plain_routes in Hp. rewrite Forall_forall in Hp.
  specialize (Hp c Hc). unfold plain_route in Hp.
  apply andb_true_iff in Hp. destruct Hp as [Hp _].
  now apply negb_true_iff in Hp.
Qed.

(** With routes that are not inherited names, the loop ends with one
    property per route; the property of a route holds the type
    expressions of exactly the contributing descriptors of that route,
    in the order of the handler list. *)
Lemma collect_groups n :
  Forall (fun c => Js.inherited (fst c) = false)
         (contributions (middleware n)) ->
  collect n (middleware n) [] = Ok (discovery_entries n)
  /\ forall r tys,
      In (r, tys) (Js.entries (discovery_entries n))
      <-> (exists h, In (r, h) (contributions (middleware n)))
          /\ tys = types_for n r (contributions (middleware n)).
Proof.
  intros HF. split.
  - rewrite collect_fold by assumption. f_equal. apply fold_discovery.
  - intros r tys. rewrite In_entries. unfold discovery_entries.
    rewrite in_map_iff. split.
    + intros [r' [Heq Hin]]. inversion Heq; subst. split; [|reflexivity].
      apply first_seen_incl, in_map_iff in Hin.
      destruct Hin as [[r0 h] [Hr Hc]]. simpl in Hr. subst. now exists h.
    + intros [[h Hc] ->]. exists r. split; [reflexivity|].
      apply first_seen_complete; [|intros []].
      apply in_map_iff. now exists (r, h).
Qed.

(** A route that starts with a slash, as every scanned route does, is
    plain. *)
Lemma slash_route_plain r : plain_route (String "/" r) = true.
Proof. reflexivity. Qed.

End RunFacts.

(** ** The type manifest *)

(** C3, as amended.  Two successive runs of [writeTypes] on one context
    end alike and write the same files with the same text.  When no
    contributing route is an array index or the name of a member of
    [Object.prototype], the run succeeds and the manifest lists the
    routes in order of first appearance in the handler list, each with
    the type expressions of its handlers in order. *)
Theorem writeTypes_repeatable_in_discovery_order `{ext : Externals}
        (w : World) :
  let n := nitro w in
  let w' := snd (writeTypes w) in
  nitro w' = n
  /\ fst (writeTypes w') = fst (writeTypes w)
  /\ written writeTypes w' = written writeTypes w
  /\ (plain_routes n ->
      fst (writeTypes w) = Ok tt
      /\ exists more,
          written writeTypes w
          = EWriteFile (manifest_file n) (Text (discovery_manifest n)) :: more).
Proof.
  intros n w'.
  destruct (writeTypes_trace w) as [Hn Ht]. fold w' in Hn, Ht. fold n in Hn, Ht.
  destruct (writeTypes_trace w') as [_ Ht']. rewrite Hn in Ht'.
  split; [exact Hn|]. split; [|split].
  - rewrite (writeTypes_run w'), (writeTypes_run w), Hn. fold n.
    now destruct (collect n (middleware n) []).
  - rewrite (written_extends writeTypes w' _ Ht'), (written_extends writeTypes w _ Ht). reflexivity.
  - intros Hp.
    destruct (collect_groups n (plain_not_inherited n Hp)) as [Hc _].
    rewrite (written_extends writeTypes w _ Ht). unfold types_stage. fold n in Hc.
    rewrite writeTypes_run. fold n. rewrite Hc. split; [reflexivity|].
    unfold types_events, discovery_manifest, manifest_lines.
    rewrite (entries_creation_order _ _ (plain_discovery_keys n Hp)).
    eexists. reflexivity.
Qed.

(** The end-to-end scenario: two handlers of [/status]. *)
Lemma writeTypes_repeatable_witness :
  plain_routes Demo.status_twice
  /\ exists more,
      written (writeTypes (ext := Demo.working)) (Demo.start Demo.status_twice)
      = EWriteFile "/work/.nitro/types/nitro.d.ts"
          (Text (discovery_manifest (ext := Demo.working) Demo.status_twice))
        :: more.
Proof.
  assert (Hp : plain_routes Demo.status_twice) by (repeat constructor).
  split; [exact Hp|].
  exact (proj2 (proj2 (proj2 (proj2
           (writeTypes_repeatable_in_discovery_order
              (ext := Demo.working) (Demo.start Demo.status_twice)))) Hp)).
Defined.

(** C3, as stated, fails: for the declared routes [2] and [1], in this
    order, the manifest lists [1] before [2]. *)
Lemma writeTypes_numeric_routes_resorted :
  let n := Demo.numeric_routes in
  discovery_routes n = ["2"; "1"]
  /\ (exists types,
        collect (ext := Demo.working) n (middleware n) [] = Ok types
        /\ map fst types = ["2"; "1"]
        /\ map fst (Js.entries types) = ["1"; "2"])
  /\ ~ exists more,
        written (writeTypes (ext := Demo.working)) (Demo.start n)
        = EWriteFile (manifest_file (ext := Demo.working) n)
            (Text (discovery_manifest (ext := Demo.working) n)) :: more.
Proof.
  split; [reflexivity|]. split.
  - eexists. split; [vm_compute; reflexivity|]. split; reflexivity.
  - intros [more H]. vm_compute in H. discriminate H.
Qed.

(** C9 at a declared handler with the route [constructor]: the
    descriptor has a module path and a route, and [writeTypes] throws
    without writing a manifest. *)
Lemma writeTypes_inherited_route_throws :
  let w := Demo.start Demo.inherited_route in
  contributions (middleware (nitro w)) = [("constructor", "/work/a.ts")]
  /\ writeTypes (ext := Demo.working) w
     = (Throw (TypeError "routeTypes[mw.route].push is not a function"), w).
Proof.
  split; reflexivity.
Qed.

(** ** The storage snapshot *)

Section SnapshotFacts.

Context `{ext : Externals}.

Lemma _snapshot_run w :
  _snapshot w
  = if snapshot_skipped (nitro w) then (Ok tt, w)
    else match snapshotStorage (registered (nitro w)) with
         | Ok data =>
             (Ok tt,
              {| nitro := registered (nitro w);
                 trace := trace w
                          ++ snapshot_events (storageDir (nitro w)) data |})
         | Throw e =>
             (Throw e, {| nitro := registered (nitro w); trace := trace w |})
         end.
Proof.
  unfold _snapshot, bind, get_nitro, set_nitro, lift, emit_all, ret.
  destruct (snapshot_skipped (nitro w)); [reflexivity|]. simpl.
  fold (registered (nitro w)).
  destruct (snapshotStorage (registered (nitro w))); reflexivity.
Qed.

Lemma snapshot_skipped_iff n :
  snapshot_skipped n = true
  <-> bundledStorage (options n) = []
      \/ preset (options n) = "nitro-prerender".
Proof.
  unfold snapshot_skipped. rewrite orb_true_iff, Nat.eqb_eq, String.eqb_eq.
  destruct (bundledStorage (options n)); simpl; intuition congruence.
Qed.

Lemma replace_colons_get key : forall i,
  String.get i (Js.replace_colons key)
  = option_map colon_to_slash (String.get i key).
Proof.
  induction key as [|c key IH]; intros i; simpl.
  - reflexivity.
  - destruct i; [reflexivity | apply IH].
Qed.

End SnapshotFacts.

(** C6.  [_snapshot] leaves the world as it is -- no write, no asset
    source -- when no storage mount is bundled or the preset is
    [nitro-prerender].  Otherwise it appends the snapshot directory to
    [serverAssets], and every write it issues is for an entry that the
    storage collaborator returned for the context that already holds this
    registration. *)
Theorem _snapshot_skips_or_registers_first `{ext : Externals} (w : World) :
  let n := nitro w in
  ((bundledStorage (options n) = [] \/ preset (options n) = "nitro-prerender")
   -> _snapshot w = (Ok tt, w))
  /\ (bundledStorage (options n) <> []
      -> preset (options n) <> "nitro-prerender"
      -> let w' := snd (_snapshot w) in
         serverAssets (options (nitro w'))
         = serverAssets (options n)
           ++ [{| baseName := "nitro:bundled";
                  dir := resolve [buildDir (options n); "snapshot"] |}]
         /\ forall ev,
             In ev (written _snapshot w) ->
             exists data,
               snapshotStorage (nitro w') = Ok data
               /\ In ev (snapshot_events (storageDir n) data)).
Proof.
  intros n. split.
  - intros Hskip. apply snapshot_skipped_iff in Hskip.
    rewrite _snapshot_run. fold n. now rewrite Hskip.
  - intros Hm Hp w'.
    assert (Hs : snapshot_skipped n = false).
    { destruct (snapshot_skipped n) eqn:E; [|reflexivity].
      apply snapshot_skipped_iff in E. tauto. }
    subst w'. unfold written. rewrite _snapshot_run. fold n. rewrite Hs.
    destruct (snapshotStorage (registered n)) as [data|e] eqn:Hd; simpl.
    + split; [reflexivity|]. intros ev Hev.
      rewrite skipn_length_app in Hev. now exists data.
    + split; [reflexivity|]. intros ev Hev.
      rewrite skipn_all in Hev. contradiction.
Qed.

(** The preset skip, and a snapshot of two entries. *)
Lemma _snapshot_skips_or_registers_first_witness :
  _snapshot (ext := Demo.working) (Demo.start (Demo.with_storage "nitro-prerender"))
  = (Ok tt, Demo.start (Demo.with_storage "nitro-prerender"))
  /\ serverAssets
       (options (nitro (snd (_snapshot (ext := Demo.working)
                               (Demo.start (Demo.with_storage "node-server"))))))
     = [{| baseName := "nitro:bundled"; dir := "/work/.nitro/snapshot" |}].
Proof.
  split.
  - apply (proj1 (_snapshot_skips_or_registers_first
                    (ext := Demo.working)
                    (Demo.start (Demo.with_storage "nitro-prerender")))).
    right. reflexivity.
  - apply (proj2 (_snapshot_skips_or_registers_first
                    (ext := Demo.working)
                    (Demo.start (Demo.with_storage "node-server")))).
    + discriminate.
    + discriminate.
Defined.

(** C7.  When the snapshot is not skipped, every entry the storage
    collaborator returns is written: see [entry_written]. *)
Theorem _snapshot_writes_every_entry `{ext : Externals}
        (w : World) (data : list (string * storage_value))
        (key : string) (v : storage_value) :
  snapshot_skipped (nitro w) = false ->
  snapshotStorage (registered (nitro w)) = Ok data ->
  In (key, v) data ->
  entry_written w key v.
Proof.
  intros Hs Hd Hin.
  exists (Js.replace_colons key), (entry_contents v).
  split; [apply replace_colons_get|]. split; [now destruct v|].
  apply in_split in Hin. destruct Hin as [d1 [d2 ->]].
  unfold written. rewrite _snapshot_run, Hs, Hd. simpl trace.
  rewrite skipn_length_app. unfold snapshot_events.
  rewrite !map_app. simpl map.
  exists (map (fun e => EMkdir (dirname (entry_fsPath (storageDir (nitro w))
                                           (fst e)))) d1).
  exists (map (fun e => EMkdir (dirname (entry_fsPath (storageDir (nitro w))
                                           (fst e)))) d2
          ++ map (fun e => EFsWriteFile (entry_fsPath (storageDir (nitro w))
                                           (fst e))
                             (entry_contents (snd e))) d1).
  exists (map (fun e => EFsWriteFile (entry_fsPath (storageDir (nitro w))
                                        (fst e))
                          (entry_contents (snd e))) d2).
  unfold entry_fsPath, storageDir.
  repeat (rewrite <- app_assoc; simpl). reflexivity.
Qed.

(** The snapshot of [a:b] and [c:d]. *)
Lemma _snapshot_writes_every_entry_witness :
  entry_written (ext := Demo.working)
    (Demo.start (Demo.with_storage "node-server")) "a:b" (VString "hello")
  /\ entry_written (ext := Demo.working)
       (Demo.start (Demo.with_storage "node-server"))
       "c:d" (@VStructured Demo.opaque [("x", 1%N)]).
Proof.
  split.
  - apply (_snapshot_writes_every_entry (ext := Demo.working)
             (Demo.start (Demo.with_storage "node-server")) Demo.stored);
      [reflexivity | reflexivity | simpl; tauto].
  - apply (_snapshot_writes_every_entry (ext := Demo.working)
             (Demo.start (Demo.with_storage "node-server")) Demo.stored);
      [reflexivity | reflexivity | simpl; tauto].
Defined.

(** ** A failing bundler in [_build] *)

Section FailureFacts.

Context `{ext : Externals}.

(** The handler of the rejection always ends by throwing the value it
    received. *)
Lemma on_rollup_error_run {A} (f : Failure) (w : World) :
  on_rollup_error (A := A) f w
  = (Throw (BundlerFailure f), snd (format_failure f w)).
Proof.
  unfold on_rollup_error, bind, try_ignore, throw.
  destruct (format_failure f w) as [[u|e] w']; reflexivity.
Qed.

(** [_build] once the bundler has rejected. *)
Lemma _build_rejected cfg w w1 f :
  before_bundling cfg w = (Ok tt, w1) ->
  rollup_rollup cfg (nitro w1) = inl f ->
  _build cfg w = (Throw (BundlerFailure f), snd (format_failure f w1)).
Proof.
  intros Hb Hr. unfold _build, before_bundling, bind in *.
  destruct (scan w) as [[u0|e0] w0]; [|discriminate].
  destruct (writeTypes w0) as [[u2|e2] w2]; [|discriminate].
  destruct (_snapshot w2) as [[u3|e3] w3]; [|discriminate].
  unfold emit, get_nitro in *. simpl in *.
  inversion Hb; subst w1. simpl in Hr. rewrite Hr.
  rewrite on_rollup_error_run. reflexivity.
Qed.

Lemma append_assoc (a b c : string) :
  ((a ++ b) ++ c = a ++ (b ++ c))%string.
Proof.
  induction a as [|x a IH]; simpl; [reflexivity | now rewrite IH].
Qed.

End FailureFacts.

(** C10.  When formatting the diagnostics throws, the exception is
    dropped and [_build] throws the rejection value of the bundler. *)
Theorem _build_rethrows_when_formatting_throws `{ext : Externals}
        (cfg : RollupConfig) (w w1 w2 : World) (f : Failure) (e : exn) :
  before_bundling cfg w = (Ok tt, w1) ->
  rollup_rollup cfg (nitro w1) = inl f ->
  format_failure f w1 = (Throw e, w2) ->
  _build cfg w = (Throw (BundlerFailure f), w2).
Proof.
  intros Hb Hr Hf.
  rewrite (_build_rejected cfg w w1 f Hb Hr), Hf. reflexivity.
Qed.

(** A rejection value whose [errors] cannot be iterated. *)
Lemma _build_rethrows_witness :
  let ext := Demo.externals (inl Demo.odd_errors) in
  let w := Demo.start Demo.status_twice in
  let w1 := snd (before_bundling (ext := ext) 1 w) in
  format_failure (ext := ext) Demo.odd_errors w1
  = (Throw (TypeError "_error.errors is not iterable"), w1)
  /\ _build (ext := ext) 1 w = (Throw (BundlerFailure Demo.odd_errors), w1).
Proof.
  intros ext w w1. split; [reflexivity|].
  apply (_build_rethrows_when_formatting_throws (ext := ext) 1 w w1 w1
           Demo.odd_errors (TypeError "_error.errors is not iterable"));
    reflexivity.
Defined.

(** ** Watch mode *)

Section WatchFacts.

Context `{ext : Externals}.

Lemma scan_run w :
  scan w
  = match scanHandlers (nitro w) with
    | Ok n' => (Ok tt, {| nitro := n'; trace := trace w ++ [EScanHandlers] |})
    | Throw e =>
        (Throw e, {| nitro := nitro w; trace := trace w ++ [EScanHandlers] |})
    end.
Proof.
  unfold scan, bind, emit, get_nitro, lift, set_nitro. simpl.
  destruct (scanHandlers (nitro w)); reflexivity.
Qed.

(** *** What each stage of [reload] does to the session *)

Lemma reload_close_trace s :
  trace (world (reload_close s)) = trace (world s) ++ close_stage s.
Proof.
  unfold reload_close, close_stage, run, emit.
  destruct (rollupWatcher s); simpl; [reflexivity | now rewrite app_nil_r].
Qed.

Lemma reload_close_fields s :
  nitro (world (reload_close s)) = nitro (world s)
  /\ rollupConfig (reload_close s) = rollupConfig s
  /\ rollupWatcher (reload_close s) = rollupWatcher s
  /\ watchers (reload_close s) = watchers s
  /\ reload_at (reload_close s) = Scanning.
Proof.
  unfold reload_close, run, emit. destruct (rollupWatcher s) eqn:E; simpl;
    rewrite ?E; repeat split; reflexivity.
Qed.

Lemma reload_scan_trace s :
  trace (world (snd (reload_scan s))) = trace (world s) ++ [EScanHandlers].
Proof.
  unfold reload_scan, run. rewrite scan_run.
  destruct (scanHandlers (nitro (world s))); reflexivity.
Qed.

Lemma reload_scan_fields s :
  rollupConfig (snd (reload_scan s)) = rollupConfig s
  /\ rollupWatcher (snd (reload_scan s)) = rollupWatcher s
  /\ watchers (snd (reload_scan s)) = watchers s
  /\ reload_at (snd (reload_scan s)) <> Scanning.
Proof.
  unfold reload_scan, run. rewrite scan_run.
  destruct (scanHandlers (nitro (world s))); simpl;
    repeat split; discriminate.
Qed.

Lemma reload_scan_result s :
  match scanHandlers (nitro (world s)) with
  | Ok n' => fst (reload_scan s) = Ok tt
             /\ nitro (world (snd (reload_scan s))) = n'
  | Throw e => fst (reload_scan s) = Throw e
  end.
Proof.
  unfold reload_scan, run. rewrite scan_run.
  destruct (scanHandlers (nitro (world s))); simpl; auto.
Qed.

Lemma reload_start_trace s :
  trace (world (snd (reload_start s)))
  = trace (world s)
    ++ start_stage s (nitro (world s)) ++ types_stage (nitro (world s)).
Proof.
  unfold reload_start, run, start_stage.
  match goal with
  | |- context [writeTypes ?w] =>
      destruct (writeTypes_trace w) as [_ Ht];
      destruct (writeTypes w) as [r w'] eqn:E
  end.
  simpl in *. rewrite Ht. now rewrite <- app_assoc.
Qed.

Lemma reload_start_fields s :
  rollupConfig (snd (reload_start s)) = rollupConfig s
  /\ rollupWatcher (snd (reload_start s)) = Some (watchers s)
  /\ reload_at (snd (reload_start s)) = Idle.
Proof.
  unfold reload_start, run.
  match goal with
  | |- context [writeTypes ?w] => destruct (writeTypes w) as [r w']
  end.
  repeat split.
Qed.

Lemma on_close_trace s :
  trace (world (snd (on_close s)))
  = trace (world s)
    ++ match rollupWatcher s with
       | Some h => [ERollupWatcherClose h; EReloadWatcherClose]
       | None => []
       end.
Proof.
  unfold on_close. destruct (rollupWatcher s); simpl;
    [reflexivity | now rewrite app_nil_r].
Qed.

Lemma on_close_fields s :
  rollupConfig (snd (on_close s)) = rollupConfig s
  /\ rollupWatcher (snd (on_close s)) = rollupWatcher s
  /\ reload_at (snd (on_close s)) = reload_at s.
Proof.
  unfold on_close. destruct (rollupWatcher s) eqn:E; simpl;
    rewrite ?E; repeat split.
Qed.

Lemma on_all_fields event s :
  world (on_all event s) = world s
  /\ rollupConfig (on_all event s) = rollupConfig s
  /\ rollupWatcher (on_all event s) = rollupWatcher s
  /\ reload_at (on_all event s) = reload_at s.
Proof.
  unfold on_all. destruct (watchReloadEvents_has event); repeat split.
Qed.

(** The whole call, stage after stage. *)
Lemma reload_trace s :
  trace (world (snd (reload s)))
  = trace (world s)
    ++ close_stage s ++ [EScanHandlers]
    ++ match scanHandlers (nitro (world s)) with
       | Ok n' => start_stage s n' ++ types_stage n'
       | Throw _ => []
       end.
Proof.
  unfold reload.
  pose proof (reload_scan_trace (reload_close s)) as Hs.
  pose proof (reload_scan_result (reload_close s)) as Hr.
  pose proof (reload_scan_fields (reload_close s)) as [Hc [_ [Hw _]]].
  destruct (reload_close_fields s) as [Hn [Hc0 [_ [Hw0 _]]]].
  rewrite Hn in Hr. rewrite reload_close_trace in Hs.
  destruct (reload_scan (reload_close s)) as [r s'] eqn:E. simpl in *.
  destruct (scanHandlers (nitro (world s))) as [n'|e].
  - destruct Hr as [-> Hn']. rewrite reload_start_trace, Hs, Hn'.
    unfold start_stage. rewrite Hc, Hc0, Hw, Hw0.
    now rewrite <- !app_assoc.
  - subst r. simpl. rewrite Hs. now rewrite <- !app_assoc, ?app_nil_r.
Qed.

(** *** Open watchers along a trace *)

Lemma open_watchers_snoc t e :
  open_watchers (t ++ [e]) = after_event (open_watchers t) e.
Proof. unfold open_watchers. now rewrite fold_left_app. Qed.

Lemma singular_last t : singular t -> length (open_watchers t) <= 1.
Proof. intros Hs. apply (Hs t []). now rewrite app_nil_r. Qed.

Lemma singular_snoc t e :
  singular t -> length (open_watchers (t ++ [e])) <= 1 ->
  singular (t ++ [e]).
Proof.
  intros Hs He p q Heq.
  induction q as [|e' q' _] using rev_ind.
  - rewrite app_nil_r in Heq. now subst p.
  - rewrite app_assoc in Heq. apply app_inj_tail in Heq.
    destruct Heq as [Heq _]. now apply (Hs p q').
Qed.

Lemma quiet_after o e : quiet e = true -> after_event o e = o.
Proof. destruct e; simpl; (discriminate || reflexivity). Qed.

Lemma singular_quiet es : forall t,
  singular t -> forallb quiet es = true ->
  singular (t ++ es) /\ open_watchers (t ++ es) = open_watchers t.
Proof.
  induction es as [|e es IH]; intros t Hs Hq.
  - now rewrite app_nil_r.
  - simpl in Hq. apply andb_true_iff in Hq. destruct Hq as [He Hq].
    assert (Ho : open_watchers (t ++ [e]) = open_watchers t)
      by (rewrite open_watchers_snoc; now apply quiet_after).
    assert (Hs1 : singular (t ++ [e])).
    { apply singular_snoc; [exact Hs|]. rewrite Ho.
      now apply singular_last. }
    destruct (IH (t ++ [e]) Hs1 Hq) as [H1 H2].
    rewrite <- app_assoc in H1, H2. simpl in H1, H2.
    split; [exact H1 | now rewrite H2].
Qed.

Lemma types_stage_quiet n : forallb quiet (types_stage n) = true.
Proof.
  unfold types_stage, types_events.
  destruct (collect n (middleware n) []); [|reflexivity].
  destruct (typescript_generateTsConfig (options n)); reflexivity.
Qed.

Lemma remove_watcher_single h : remove_watcher h [h] = [].
Proof. simpl. now rewrite Nat.eqb_refl. Qed.

Lemma session_ok_close_event w0 s s' h more :
  session_ok w0 s ->
  rollupWatcher s = Some h ->
  trace (world s') = trace (world s) ++ ERollupWatcherClose h :: more ->
  forallb quiet more = true ->
  exists evs,
    trace (world s') = trace w0 ++ evs
    /\ singular evs /\ open_watchers evs = [].
Proof.
  intros [evs [Ht [Hs Ho]]] Hw Ht' Hq.
  assert (Hc : open_watchers (evs ++ [ERollupWatcherClose h]) = []).
  { rewrite open_watchers_snoc. simpl.
    destruct Ho as [->|[_ [h' [Hw' ->]]]]; [reflexivity|].
    rewrite Hw in Hw'. inversion Hw'; subst. apply remove_watcher_single. }
  assert (Hs1 : singular (evs ++ [ERollupWatcherClose h]))
    by (apply singular_snoc; [exact Hs | rewrite Hc; simpl; lia]).
  destruct (singular_quiet more _ Hs1 Hq) as [H1 H2].
  exists ((evs ++ [ERollupWatcherClose h]) ++ more).
  split; [|split; [exact H1 | now rewrite H2]].
  rewrite Ht', Ht. now rewrite <- !app_assoc.
Qed.

Lemma session_ok_step w0 s s' :
  session_ok w0 s -> step s s' -> session_ok w0 s'.
Proof.
  intros Hok Hstep. destruct Hstep as [s Hat Hp|s Hat|s Hat|s event Hc|s].
  - (* the call starts: the previous watcher is closed *)
    destruct (reload_close_fields s) as [_ [_ [_ [_ Hat']]]].
    pose proof (reload_close_trace s) as Ht'. unfold close_stage in Ht'.
    destruct (rollupWatcher s) as [h|] eqn:Hw.
    + destruct (session_ok_close_event w0 s (reload_close s) h []
                  Hok Hw Ht' eq_refl) as [evs [H1 [H2 H3]]].
      exists evs. auto.
    + destruct Hok as [evs [Ht [Hs Ho]]]. exists evs.
      rewrite Ht', app_nil_r. split; [exact Ht|]. split; [exact Hs|].
      destruct Ho as [Ho|[_ [h [Hw' _]]]]; [now left | congruence].
  - (* the scan *)
    destruct Hok as [evs [Ht [Hs Ho]]].
    destruct Ho as [Ho|[Hidle _]]; [|congruence].
    destruct (singular_quiet [EScanHandlers] evs Hs eq_refl) as [H1 H2].
    exists (evs ++ [EScanHandlers]). rewrite reload_scan_trace, Ht.
    split; [now rewrite <- app_assoc|]. split; [exact H1|].
    left. now rewrite H2.
  - (* a new watcher is started, the types are written *)
    destruct Hok as [evs [Ht [Hs Ho]]].
    destruct Ho as [Ho|[Hidle _]]; [|congruence].
    destruct (reload_start_fields s) as [_ [Hw' Hat']].
    pose proof (reload_start_trace s) as Ht'. unfold start_stage in Ht'.
    set (e := ERollupWatch (watchers s)
                (watch_options (rollupConfig s) (nitro (world s)))) in *.
    assert (Hc : open_watchers (evs ++ [e]) = [watchers s])
      by (rewrite open_watchers_snoc, Ho; reflexivity).
    assert (Hs1 : singular (evs ++ [e]))
      by (apply singular_snoc; [exact Hs | rewrite Hc; simpl; lia]).
    destruct (singular_quiet _ _ Hs1 (types_stage_quiet (nitro (world s))))
      as [H1 H2].
    exists ((evs ++ [e]) ++ types_stage (nitro (world s))).
    split; [rewrite Ht', Ht; now rewrite <- !app_assoc|].
    split; [exact H1|]. right. split; [exact Hat'|].
    exists (watchers s). split; [exact Hw' | now rewrite H2].
  - (* an event of the outer watcher *)
    destruct (on_all_fields event s) as [Hw [_ [Hr Hat]]].
    destruct Hok as [evs Hok]. exists evs. now rewrite Hw, Hr, Hat.
  - (* the hook close *)
    destruct (on_close_fields s) as [_ [Hr Hat]].
    pose proof (on_close_trace s) as Ht'.
    destruct (rollupWatcher s) as [h|] eqn:Hw.
    + destruct (session_ok_close_event w0 s (snd (on_close s)) h
                  [EReloadWatcherClose] Hok Hw Ht' eq_refl)
        as [evs [H1 [H2 H3]]].
      exists evs. auto.
    + destruct Hok as [evs [Ht [Hs Ho]]]. exists evs.
      rewrite Ht', app_nil_r, Hat, Hr. split; [exact Ht|].
      split; [exact Hs|].
      destruct Ho as [Ho|[_ [h [Hw' _]]]]; [now left | congruence].
Qed.

Lemma singular_nil : singular [].
Proof.
  intros p q Heq. symmetry in Heq. apply app_eq_nil in Heq.
  destruct Heq as [-> _]. simpl. lia.
Qed.

Lemma session_ok_start w cfg : session_ok w (_watch w cfg).
Proof.
  exists [EChokidarWatch (watchPatterns (nitro w)); EHookRegister "close"].
  split; [reflexivity|].
  destruct (singular_quiet
              [EChokidarWatch (watchPatterns (nitro w)); EHookRegister "close"]
              [] singular_nil eq_refl) as [H1 H2].
  split; [exact H1 | left; exact H2].
Qed.

Lemma session_ok_steps w cfg s :
  steps (_watch w cfg) s -> session_ok w s.
Proof.
  intros Hs. remember (_watch w cfg) as s0 eqn:E.
  induction Hs as [s|s1 s2 s3 H12 IH H23].
  - subst. apply session_ok_start.
  - eapply session_ok_step; [apply IH, E | exact H23].
Qed.

End WatchFacts.

Section WatchSteps.

Context `{ext : Externals}.

(** A whole call of [reload] is a run of the session. *)
Lemma reload_steps s :
  reload_at s = Idle -> reload_pending s = true ->
  steps s (snd (reload s)).
Proof.
  intros Hat Hp. unfold reload.
  assert (H1 : steps s (reload_close s))
    by (eapply steps_next; [apply steps_refl | now apply step_reload_close]).
  destruct (reload_close_fields s) as [_ [_ [_ [_ Hsc]]]].
  assert (H2 : steps s (snd (reload_scan (reload_close s))))
    by (eapply steps_next; [exact H1 | now apply step_reload_scan]).
  unfold reload_scan, run in *. rewrite scan_run in *.
  destruct (scanHandlers (nitro (world (reload_close s)))); simpl in *.
  - eapply steps_next; [exact H2 | now apply step_reload_start].
  - exact H2.
Qed.

Lemma steps_trans s1 s2 s3 : steps s1 s2 -> steps s2 s3 -> steps s1 s3.
Proof.
  intros H12 H23. induction H23 as [|s2 s3 s4 _ IH H34]; [exact H12|].
  eapply steps_next; [apply IH, H12 | exact H34].
Qed.

Lemma started_with_app cfg evs new :
  started_with cfg evs -> started_with cfg new ->
  started_with cfg (evs ++ new).
Proof.
  intros H1 H2 h o Hin. apply in_app_or in Hin.
  destruct Hin; [eapply H1 | eapply H2]; eassumption.
Qed.

Lemma started_with_quiet cfg evs :
  forallb quiet evs = true -> started_with cfg evs.
Proof.
  intros Hq h o Hin. rewrite forallb_forall in Hq.
  apply Hq in Hin. discriminate.
Qed.

(** One step keeps the configuration and starts watchers with it. *)
Lemma step_config s s' :
  step s s' ->
  rollupConfig s' = rollupConfig s
  /\ exists new, trace (world s') = trace (world s) ++ new
                 /\ started_with (rollupConfig s) new.
Proof.
  intros Hstep. destruct Hstep as [s Hat Hp|s Hat|s Hat|s event Hopen|s].
  - destruct (reload_close_fields s) as [_ [Hc _]]. split; [exact Hc|].
    exists (close_stage s). split; [apply reload_close_trace|].
    unfold close_stage. intros h o Hin.
    destruct (rollupWatcher s); simpl in Hin; intuition discriminate.
  - destruct (reload_scan_fields s) as [Hc _]. split; [exact Hc|].
    exists [EScanHandlers]. split; [apply reload_scan_trace|].
    now apply started_with_quiet.
  - destruct (reload_start_fields s) as [Hc _]. split; [exact Hc|].
    eexists. split; [apply reload_start_trace|].
    apply started_with_app.
    + intros h o [Heq|[]]. inversion Heq; subst. now eexists.
    + apply started_with_quiet, types_stage_quiet.
  - destruct (on_all_fields event s) as [Hw [Hc _]]. split; [exact Hc|].
    exists []. rewrite Hw, app_nil_r. split; [reflexivity|].
    now apply started_with_quiet.
  - destruct (on_close_fields s) as [Hc _]. split; [exact Hc|].
    eexists. split; [apply on_close_trace|].
    intros h o Hin.
    destruct (rollupWatcher s); simpl in Hin; intuition discriminate.
Qed.

Lemma steps_config s0 s :
  steps s0 s ->
  rollupConfig s = rollupConfig s0
  /\ exists evs, trace (world s) = trace (world s0) ++ evs
                 /\ started_with (rollupConfig s0) evs.
Proof.
  intros Hs. induction Hs as [s|s1 s2 s3 _ IH H23].
  - split; [reflexivity|]. exists []. rewrite app_nil_r.
    split; [reflexivity|]. now apply started_with_quiet.
  - destruct IH as [Hc [evs [Ht Hev]]].
    destruct (step_config s2 s3 H23) as [Hc' [new [Ht' Hnew]]].
    split; [congruence|]. exists (evs ++ new).
    split; [rewrite Ht', Ht; now rewrite <- app_assoc|].
    apply started_with_app; [exact Hev | now rewrite <- Hc].
Qed.

Lemma build_watching w s0 :
  build w = Watching s0 ->
  rollupConfig s0 = getRollupConfig (nitro w).
Proof.
  unfold build. destruct (call_hook "rollup:before" w) as [[u|e] w'].
  - destruct (dev (options (nitro w'))).
    + intros Heq. inversion Heq. reflexivity.
    + destruct (_build (getRollupConfig (nitro w)) w'). discriminate.
  - discriminate.
Qed.

Lemma has_reload_event event :
  watchReloadEvents_has event = true
  <-> In event ["add"; "addDir"; "unlink"; "unlinkDir"].
Proof.
  unfold watchReloadEvents_has, watchReloadEvents.
  rewrite existsb_exists. split.
  - intros [x [Hin Heq]]. apply String.eqb_eq in Heq. now subst.
  - intros Hin. exists event. split; [exact Hin | apply String.eqb_refl].
Qed.

End WatchSteps.

(** C1, as amended.  In watch mode the bundler configuration is derived
    from the context once, when [build] starts; it is the parameter of
    [_watch] and stays so for the whole session, and every bundler-watch
    session is started with this value, completed by [defu] with watch
    options read from the context. *)
Theorem watch_config_derived_once `{ext : Externals}
        (w : World) (s0 s : Session) :
  build w = Watching s0 ->
  steps s0 s ->
  rollupConfig s = getRollupConfig (nitro w)
  /\ exists evs,
      trace (world s) = trace (world s0) ++ evs
      /\ forall h o,
          In (ERollupWatch h o) evs ->
          exists n,
            o = defu_watch (getRollupConfig (nitro w))
                           (watchOptions (options n)).
Proof.
  intros Hb Hs. apply build_watching in Hb.
  destruct (steps_config s0 s Hs) as [Hc [evs [Ht Hev]]].
  rewrite Hb in Hc, Hev. split; [exact Hc|].
  exists evs. split; [exact Ht|]. exact Hev.
Qed.

(** After the first reload the scan has found a handler, and the
    watcher runs with the configuration derived before. *)
Lemma watch_config_derived_once_witness :
  let w := Demo.start Demo.dev_context in
  let s0 := _watch (ext := Demo.working)
              (snd (call_hook (ext := Demo.working) "rollup:before" w)) 0 in
  let s1 := snd (reload (ext := Demo.working) s0) in
  rollupConfig s1 = 0
  /\ exists evs,
      trace (world s1) = trace (world s0) ++ evs
      /\ forall h o,
          In (ERollupWatch h o) evs ->
          exists n, o = defu_watch (Externals := Demo.working) 0
                          (watchOptions (options n)).
Proof.
  intros w s0 s1.
  apply (watch_config_derived_once (ext := Demo.working) w s0 s1).
  - reflexivity.
  - apply (reload_steps (ext := Demo.working) s0); reflexivity.
Defined.

(** C1, as stated, fails: the scan of the first reload changes the
    context, and the options handed to [rollup.watch] are not the ones
    derived from the context of that reload. *)
Lemma watch_config_not_rederived :
  let w := Demo.start Demo.dev_context in
  let s0 := _watch (ext := Demo.working)
              (snd (call_hook (ext := Demo.working) "rollup:before" w)) 0 in
  let s1 := snd (reload (ext := Demo.working) s0) in
  build (ext := Demo.working) w = Watching s0
  /\ steps (ext := Demo.working) s0 s1
  /\ In (@ERollupWatch Demo.opaque 0 (0, false)) (trace (world s1))
  /\ watch_options (ext := Demo.working)
       (getRollupConfig (Externals := Demo.working) (nitro (world s1)))
       (nitro (world s1)) = (1, false)
  /\ ~ (forall h o,
          In (ERollupWatch h o) (trace (world s1)) ->
          o = watch_options (ext := Demo.working)
                (getRollupConfig (Externals := Demo.working)
                   (nitro (world s1)))
                (nitro (world s1))).
Proof.
  intros w s0 s1.
  assert (Hin : In (@ERollupWatch Demo.opaque 0 (0, false))
                   (trace (world s1)))
    by (vm_compute; tauto).
  split; [reflexivity|].
  split; [apply (reload_steps (ext := Demo.working) s0); reflexivity|].
  split; [exact Hin|]. split; [reflexivity|].
  intros Hall. specialize (Hall _ _ Hin). vm_compute in Hall. discriminate.
Qed.

(** C2 at a session in which no reload has run yet: the listener of
    [close] throws on the undefined [rollupWatcher] and the outer watcher
    stays open; the guard that [reload] has on the same variable is
    missing here. *)
Lemma on_close_before_first_reload_throws `{ext : Externals}
      (w : World) (cfg : RollupConfig) :
  let s := _watch w cfg in
  rollupWatcher s = None
  /\ on_close s
     = (Throw (TypeError
                 "Cannot read properties of undefined (reading 'close')"), s)
  /\ reloadWacher_closed (snd (on_close s)) = false
  /\ close_stage s = [].
Proof.
  repeat split.
Qed.

(** C5.  A whole call of [reload] adds to the trace, in this order, the
    close of the previous watcher (when there is one), the scan, the
    start of the new watcher and the files of [writeTypes]; a scan that
    throws ends the call.  In every state a session reaches, no point
    of its trace has two watchers open. *)
Theorem reload_in_order_one_watcher_open `{ext : Externals} :
  (forall s,
      trace (world (snd (reload s)))
      = trace (world s)
        ++ close_stage s ++ [EScanHandlers]
        ++ match scanHandlers (nitro (world s)) with
           | Ok n' => start_stage s n' ++ types_stage n'
           | Throw _ => []
           end)
  /\ (forall w cfg s,
         steps (_watch w cfg) s ->
         exists evs,
           trace (world s) = trace w ++ evs
           /\ forall p q, evs = p ++ q -> length (open_watchers p) <= 1).
Proof.
  split.
  - apply reload_trace.
  - intros w cfg s Hs.
    destruct (session_ok_steps w cfg s Hs) as [evs [Ht [Hsing _]]].
    exists evs. split; [exact Ht | exact Hsing].
Qed.

(** Two reloads, the second after a file was added: the first watcher
    is closed before the second is started. *)
Lemma reload_in_order_witness :
  let w := Demo.start Demo.dev_context in
  let s0 := _watch (ext := Demo.working) w 0 in
  let s1 := on_all "add" (snd (reload (ext := Demo.working) s0)) in
  let s2 := snd (reload (ext := Demo.working) s1) in
  trace (world s2)
  = trace (world s1)
    ++ [ @ERollupWatcherClose Demo.opaque 0; EScanHandlers;
         @ERollupWatch Demo.opaque 1 (0, false) ]
    ++ types_stage (ext := Demo.working) (nitro (world s2))
  /\ exists evs,
      trace (world s2) = trace w ++ evs
      /\ forall p q, evs = p ++ q -> length (open_watchers p) <= 1.
Proof.
  intros w s0 s1 s2.
  split; [exact (proj1 (reload_in_order_one_watcher_open
                          (ext := Demo.working)) s1)|].
  apply (proj2 (reload_in_order_one_watcher_open (ext := Demo.working))
           w 0 s2).
  apply (steps_trans (ext := Demo.working) _ s1).
  - eapply steps_next.
    + apply (reload_steps (ext := Demo.working) s0); reflexivity.
    + apply step_fs_event. reflexivity.
  - apply (reload_steps (ext := Demo.working) s1); reflexivity.
Defined.

(** C8.  The listener of the outer watcher calls the debounced [reload]
    for the events [add], [addDir], [unlink] and [unlinkDir] and for no
    other event, in particular not for [change].  After one of the four
    events a call of [reload] is pending, whatever was pending before,
    and nothing else of the session has changed; when no call of
    [reload] is running, the session then runs one.  Any other event
    leaves the session as it is.  And in a session a reload becomes
    pending only through one of the four events. *)
Theorem outer_watcher_reloads_on_structure_events `{ext : Externals}
        (s : Session) :
  (forall event,
      In event ["add"; "addDir"; "unlink"; "unlinkDir"] ->
      reload_pending (on_all event s) = true
      /\ on_all event s = request_reload s
      /\ world (on_all event s) = world s
      /\ rollupConfig (on_all event s) = rollupConfig s
      /\ rollupWatcher (on_all event s) = rollupWatcher s
      /\ watchers (on_all event s) = watchers s
      /\ reload_at (on_all event s) = reload_at s
      /\ reloadWacher_closed (on_all event s) = reloadWacher_closed s
      /\ (reload_at s = Idle ->
          step (on_all event s) (reload_close (on_all event s))
          /\ steps (on_all event s) (snd (reload (on_all event s)))))
  /\ (forall event,
         ~ In event ["add"; "addDir"; "unlink"; "unlinkDir"] ->
         on_all event s = s)
  /\ on_all "change" s = s
  /\ (forall s',
         step s s' ->
         reload_pending s = false -> reload_pending s' = true ->
         exists event,
           In event ["add"; "addDir"; "unlink"; "unlinkDir"]
           /\ s' = on_all event s).
Proof.
  split; [|split; [|split]].
  - intros event Hin. apply has_reload_event in Hin.
    unfold on_all. rewrite Hin.
    repeat (split; [reflexivity|]).
    intros Hat. split.
    + now apply step_reload_close.
    + now apply reload_steps.
  - intros event Hnin. unfold on_all.
    destruct (watchReloadEvents_has event) eqn:E; [|reflexivity].
    apply has_reload_event in E. contradiction.
  - reflexivity.
  - intros s' Hstep Hp Hp'.
    destruct Hstep as [s Hat Hpend|s Hat|s Hat|s event Hc|s].
    + congruence.
    + unfold reload_scan, run in Hp'.
      destruct (scan (world s)) as [[u|e] w']; simpl in Hp'; congruence.
    + unfold reload_start, run in Hp'.
      match type of Hp' with
      | context [writeTypes ?w] => destruct (writeTypes w) as [r w']
      end.
      simpl in Hp'. congruence.
    + exists event. split; [|reflexivity].
      apply has_reload_event. unfold on_all in Hp'.
      destruct (watchReloadEvents_has event); [reflexivity | congruence].
    + unfold on_close in Hp'.
      destruct (rollupWatcher s); simpl in Hp'; congruence.
Qed.

(** A session in which nothing is pending.  A directory is added: a
    reload is pending and then runs, closing the watcher and starting
    the next one.  A file is renamed or changed: nothing is pending. *)
Lemma outer_watcher_reloads_witness :
  let s := snd (reload (ext := Demo.working)
                  (_watch (ext := Demo.working)
                     (Demo.start Demo.dev_context) 0)) in
  reload_pending s = false
  /\ reload_at s = Idle
  /\ reload_pending (on_all "addDir" s) = true
  /\ steps (ext := Demo.working) (on_all "addDir" s)
       (snd (reload (ext := Demo.working) (on_all "addDir" s)))
  /\ rollupWatcher (snd (reload (ext := Demo.working) (on_all "addDir" s)))
     = Some 1
  /\ reload_pending (on_all "rename" s) = false
  /\ reload_pending (on_all "change" s) = false.
Proof.
  intros s.
  pose proof (outer_watcher_reloads_on_structure_events
                (ext := Demo.working) s) as [Hadd [Hother Hchange]].
  destruct (Hadd "addDir") as [Hp [_ [_ [_ [_ [_ [_ [_ Hrun]]]]]]]];
    [simpl; tauto|].
  split; [reflexivity|]. split; [reflexivity|].
  split; [exact Hp|].
  split; [exact (proj2 (Hrun eq_refl))|].
  split; [reflexivity|].
  split.
  - rewrite (Hother "rename"); [reflexivity|].
    simpl. intros [H|[H|[H|[H|[]]]]]; discriminate.
  - rewrite (proj1 Hchange). reflexivity.
Defined.

(** ** The diagnostics of a failing bundler *)

Section FailureReports.

Context `{ext : Externals}.

(** The stages before the bundler, one after the other. *)
Lemma before_bundling_run cfg w :
before_bundling cfg w
= match scanHandlers (nitro w) with
  | Throw e =>
      (Throw e, {| nitro := nitro w; trace := trace w ++ [EScanHandlers] |})
  | Ok n1 =>
      match collect n1 (middleware n1) [] with
      | Throw e =>
          (Throw e, {| nitro := n1; trace := trace w ++ [EScanHandlers] |})
      | Ok routeTypes =>
          let t1 := trace w ++ [EScanHandlers] ++ types_events n1 routeTypes in
          if snapshot_skipped n1
          then (Ok tt,
                {| nitro := n1;
                   trace := t1 ++ [ELog LogStart "Building server...";
                                   ERollup cfg] |})
          else match snapshotStorage (registered n1) with
               | Throw e => (Throw e, {| nitro := registered n1; trace := t1 |})
               | Ok data =>
                   (Ok tt,
                    {| nitro := registered n1;
                       trace := t1 ++ snapshot_events (storageDir n1) data
                                   ++ [ELog LogStart "Building server...";
                                       ERollup cfg] |})
               end
      end
  end.
Proof.
unfold before_bundling, bind. rewrite scan_run.
destruct (scanHandlers (nitro w)) as [n1|e]; [|reflexivity].
rewrite writeTypes_run. simpl nitro.
destruct (collect n1 (middleware n1) []) as [routeTypes|e]; [|reflexivity].
rewrite _snapshot_run. simpl nitro. simpl trace.
destruct (snapshot_skipped n1).
- unfold emit. simpl. now rewrite <- !app_assoc.
- destruct (snapshotStorage (registered n1)) as [data|e].
  + unfold emit. simpl. now rewrite <- !app_assoc.
  + now rewrite <- !app_assoc.
Qed.

Lemma existsb_map_none {A} (p : event -> bool) (f : A -> event) (l : list A) :
(forall a, p (f a) = false) -> existsb p (map f l) = false.
Proof.
intros Hf. induction l as [|a l IH]; simpl; [reflexivity|].
now rewrite Hf, IH.
Qed.

Lemma existsb_none_In (p : event -> bool) (evs : list event) e :
existsb p evs = false -> In e evs -> p e = false.
Proof.
intros Hex Hin. destruct (p e) eqn:E; [|reflexivity].
assert (existsb p evs = true) by (apply existsb_exists; now exists e).
congruence.
Qed.

(** The stages before the bundler write no bundle, no build record and
  no message of success, and call no hook. *)
Lemma before_bundling_no_output cfg w :
exists evs,
  trace (snd (before_bundling cfg w)) = trace w ++ evs
  /\ existsb is_output evs = false.
Proof.
rewrite before_bundling_run.
destruct (scanHandlers (nitro w)) as [n1|e];
  [|eexists; split; reflexivity].
destruct (collect n1 (middleware n1) []) as [routeTypes|e];
  [|eexists; split; reflexivity].
assert (Ht : existsb is_output (types_events n1 routeTypes) = false)
  by (unfold types_events;
      destruct (typescript_generateTsConfig (options n1)); reflexivity).
simpl. destruct (snapshot_skipped n1).
- exists ([EScanHandlers] ++ types_events n1 routeTypes
          ++ [ELog LogStart "Building server..."; ERollup cfg]).
  split; [simpl; now rewrite <- !app_assoc|].
  rewrite !existsb_app, Ht. reflexivity.
- destruct (snapshotStorage (registered n1)) as [data|e]; simpl.
  + exists ([EScanHandlers] ++ types_events n1 routeTypes
            ++ snapshot_events (storageDir n1) data
            ++ [ELog LogStart "Building server..."; ERollup cfg]).
    split; [simpl; now rewrite <- !app_assoc|].
    unfold snapshot_events.
    rewrite !existsb_app, Ht, !existsb_map_none by reflexivity.
    reflexivity.
  + exists ([EScanHandlers] ++ types_events n1 routeTypes).
    split; [reflexivity|]. rewrite existsb_app, Ht. reflexivity.
Qed.

(** [a || b] takes [a] when it is there. *)
Lemma or_else_present a b :
Js.or_else a b = match present a with Some i => Some i | None => b end.
Proof. destruct a as [[|c r]|]; reflexivity. Qed.

Lemma text_or_frame e :
Js.to_string (Js.or_else (text e) (frame e)) = error_body e.
Proof.
unfold error_body. rewrite or_else_present.
destruct (present (text e)); [reflexivity|].
destruct (frame e); reflexivity.
Qed.

Lemma location_position e : error_location e = error_position e.
Proof.
unfold error_location, error_position.
destruct (loc e), (location e); reflexivity.
Qed.

Lemma underlying_errors f es :
failure_errors f = Some es -> underlying f = Ok es.
Proof.
unfold failure_errors, underlying.
destruct (errors f); intros Hu; inversion Hu; reflexivity.
Qed.

(** One turn of the loop of the handler logs the diagnostic that is
  asked for. *)
Lemma report_stated f e w :
isAbsolute_undefined = Some false \/ error_file f e <> None ->
report (id (own f)) e w
= (Ok tt, {| nitro := nitro w;
             trace := trace w ++ [stated_report f e] |}).
Proof.
intros Hid. unfold report, bind, lift, emit, stated_report, stated_diagnostic.
rewrite or_else_present. fold (error_file f e).
assert (Hp : error_path (error_file f e)
             = Ok (match error_file f e with
                   | Some s => Some (if isAbsolute s then relative cwd s
                                     else s)
                   | None => None
                   end)).
{ unfold error_path. destruct (error_file f e) as [s|]; [reflexivity|].
  destruct Hid as [Hid|Hid]; [now rewrite Hid | now elim Hid]. }
rewrite Hp. cbn [fst snd nitro trace]. unfold diagnostic.
rewrite text_or_frame, location_position.
do 4 f_equal.
unfold with_location, shown_path, shown_position.
destruct (error_file f e) as [s|], (error_position e) as [l|];
  cbn [Js.to_string];
  rewrite ?append_assoc; cbn [append]; rewrite ?append_assoc;
  reflexivity.
Qed.

Lemma report_all_stated f es : forall w,
isAbsolute_undefined = Some false
\/ Forall (fun e => error_file f e <> None) es ->
report_all (id (own f)) es w
= (Ok tt, {| nitro := nitro w;
             trace := trace w ++ map (stated_report f) es |}).
Proof.
induction es as [|e es IH]; intros w HF; simpl.
- unfold ret. rewrite app_nil_r. now destruct w.
- unfold bind. rewrite report_stated.
  + rewrite IH.
    * simpl. now rewrite <- app_assoc.
    * destruct HF as [HF|HF]; [now left | right; now inversion HF].
  + destruct HF as [HF|HF]; [now left | right; now inversion HF].
Qed.

End FailureReports.

(** C4.  When the stages before the bundler succeed and the bundler
    rejects with [f], [_build] logs one diagnostic per underlying error,
    in order, and throws [f] itself.  The underlying errors are the
    entries of [f.errors], or [f] alone when it has no [errors].  A
    diagnostic names the file identifier of the error, or the one of [f]
    when the error has none, made relative to the working directory when
    absolute; then [:line:column] when the error has a position under
    [loc] or under [location]; then the text of the error, or its frame
    when it has no text.  This holds when every underlying error gets a
    file identifier, and for errors without any when the path library
    answers [false] for a missing path, as pathe does; such an error is
    reported under [undefined].  Nothing else is added to the trace, and
    the whole build has written no bundle and no build record, logged no
    hint and called no hook. *)
Theorem _build_failure_reported `{ext : Externals}
        (cfg : RollupConfig) (w w1 : World) (f : Failure)
        (es : list ErrorEntry) :
  before_bundling cfg w = (Ok tt, w1) ->
  rollup_rollup cfg (nitro w1) = inl f ->
  failure_errors f = Some es ->
  isAbsolute_undefined = Some false
  \/ Forall (fun e => error_file f e <> None) es ->
  _build cfg w
  = (Throw (BundlerFailure f),
     {| nitro := nitro w1;
        trace := trace w1 ++ map (stated_report f) es |})
  /\ (forall e, In e (written (_build cfg) w) -> is_output e = false).
Proof.
  intros Hb Hr Hu Hids.
  assert (Heq : _build cfg w
                = (Throw (BundlerFailure f),
                   {| nitro := nitro w1;
                      trace := trace w1 ++ map (stated_report f) es |})).
  { rewrite (_build_rejected cfg w w1 f Hb Hr). f_equal.
    unfold format_failure, bind, lift.
    rewrite (underlying_errors f es Hu).
    now rewrite report_all_stated. }
  split; [exact Heq|].
  intros e Hin. unfold written in Hin. rewrite Heq in Hin.
  cbn [snd trace] in Hin.
  destruct (before_bundling_no_output cfg w) as [evs [Ht Hq]].
  rewrite Hb in Ht. cbn [snd] in Ht.
  rewrite Ht, <- app_assoc, skipn_length_app in Hin.
  apply in_app_or in Hin. destruct Hin as [Hin|Hin].
  - exact (existsb_none_In is_output evs e Hq Hin).
  - apply in_map_iff in Hin. destruct Hin as [x [Hx _]]. now subst e.
Qed.

(** A bundler that reports four errors: the first has its own
    identifier, a position under [loc] and a text; the second takes the
    identifier of the rejection value, has its position under [location]
    and only a frame; the third has an empty identifier, an empty text
    and no frame; the identifier of the fourth is no absolute path.
    And a rejection value without [errors] and without identifier, which
    is reported itself. *)
Lemma _build_failure_reported_witness :
  let w := Demo.start (Demo.with_storage "node-server") in
  (let ext := Demo.externals (inl Demo.mixed_errors) in
   let w1 := snd (before_bundling (ext := ext) 1 w) in
   _build (ext := ext) 1 w
   = (Throw (BundlerFailure Demo.mixed_errors),
      {| nitro := nitro w1;
         trace :=
           trace w1
           ++ [ ELog LogError
                  ("Rollup error while processing `api/hello.ts:3:7`"
                     ++ Js.nl ++ Js.nl ++ "Unexpected token");
                ELog LogError
                  ("Rollup error while processing `src/entry.ts:10:2`"
                     ++ Js.nl ++ Js.nl ++ "> 10 | import x");
                ELog LogError
                  ("Rollup error while processing `src/entry.ts`"
                     ++ Js.nl ++ Js.nl ++ "undefined");
                ELog LogError
                  ("Rollup error while processing `virtual:handlers`"
                     ++ Js.nl ++ Js.nl ++ "Cannot resolve") ] |}))
  /\ (let ext := Demo.externals (inl Demo.single_error) in
      let w1 := snd (before_bundling (ext := ext) 1 w) in
      _build (ext := ext) 1 w
      = (Throw (BundlerFailure Demo.single_error),
         {| nitro := nitro w1;
            trace :=
              trace w1
              ++ [ ELog LogError
                     ("Rollup error while processing `undefined:1:0`"
                        ++ Js.nl ++ Js.nl ++ "> 1 | export") ] |})).
Proof.
  intros w. split.
  - intros ext w1.
    refine (proj1 (_build_failure_reported (ext := ext) 1 w w1
                     Demo.mixed_errors _ eq_refl eq_refl eq_refl _)).
    right. repeat constructor; discriminate.
  - intros ext w1.
    refine (proj1 (_build_failure_reported (ext := ext) 1 w w1
                     Demo.single_error _ eq_refl eq_refl eq_refl _)).
    left. reflexivity.
Defined.

(** ** More on the type manifest *)

Section ManifestMore.

Context `{ext : Externals}.

Lemma collect_push_all n mws : forall o,
collect n mws o = push_all n (contributions mws) o.
Proof.
induction mws as [|mw mws IH]; intros o.
- reflexivity.
- rewrite contributions_cons. simpl collect. unfold contribution.
  destruct (handler mw) as [h|]; [|apply IH].
  destruct (route mw) as [r|]; [|apply IH].
  destruct (r =? ""); [apply IH|].
  simpl. unfold push_type. simpl.
  destruct (Js.get_own o r); [apply IH|].
  destruct (Js.inherited r); [reflexivity | apply IH].
Qed.

Lemma push_all_plain n cs : forall o,
existsb (fun c => Js.inherited (fst c)) cs = false ->
push_all n cs o = Ok (fold_left (push_type n) cs o).
Proof.
induction cs as [|c cs IH]; intros o Hex.
- reflexivity.
- simpl in Hex. apply orb_false_iff in Hex. destruct Hex as [Hc Hex].
  simpl. rewrite Hc. destruct (Js.get_own o (fst c)); now apply IH.
Qed.

Lemma In_keys_get_own {V} (o : Js.object V) k v :
Js.get_own o k = Some v -> In k (keys o).
Proof.
intros Hg. pose proof (get_own_keys V o k) as Hk. rewrite Hg in Hk.
apply existsb_exists in Hk. destruct Hk as [x [Hin Heq]].
apply String.eqb_eq in Heq. now subst.
Qed.

Lemma push_all_inherited n cs : forall o,
Forall (fun k => Js.inherited k = false) (keys o) ->
existsb (fun c => Js.inherited (fst c)) cs = true ->
push_all n cs o
= Throw (TypeError "routeTypes[mw.route].push is not a function").
Proof.
induction cs as [|c cs IH]; intros o Hkeys Hex.
- discriminate.
- simpl in *. destruct (Js.inherited (fst c)) eqn:Hc.
  + destruct (Js.get_own o (fst c)) as [tys|] eqn:Hg; [|reflexivity].
    apply In_keys_get_own in Hg. rewrite Forall_forall in Hkeys.
    apply Hkeys in Hg. congruence.
  + simpl in Hex.
    assert (Hkeys' : Forall (fun k => Js.inherited k = false)
                            (keys (push_type n o c))).
    { rewrite keys_push.
      destruct (existsb (String.eqb (fst c)) (keys o)); [exact Hkeys|].
      apply Forall_app. split; [exact Hkeys | now constructor]. }
    destruct (Js.get_own o (fst c)); now apply IH.
Qed.

Lemma collect_ok_inv n rt :
collect n (middleware n) [] = Ok rt ->
has_inherited_route n = false /\ rt = discovery_entries n.
Proof.
intros Hc. rewrite collect_push_all in Hc. unfold has_inherited_route.
destruct (existsb (fun c => Js.inherited (fst c))
                  (contributions (middleware n))) eqn:Hex.
- rewrite push_all_inherited in Hc by (constructor || assumption).
  discriminate.
- split; [reflexivity|]. rewrite push_all_plain in Hc by assumption.
  inversion Hc. apply fold_discovery.
Qed.

(** *** Enumeration is a sorted rearrangement *)

Lemma insert_index_perm {V} i (e : string * V) l :
Permutation (Js.insert_index i e l) ((i, e) :: l).
Proof.
induction l as [|[j e'] l IH]; simpl.
- apply Permutation_refl.
- destruct (i <=? j)%N; [apply Permutation_refl|].
  eapply perm_trans; [apply perm_skip, IH | apply perm_swap].
Qed.

Lemma index_entries_perm {V} (o : Js.object V) :
Permutation (map snd (Js.index_entries o))
            (filter (fun e => Js.is_array_index (fst e)) o).
Proof.
induction o as [|[k v] o IH]; simpl.
- constructor.
- unfold Js.is_array_index at 1. simpl.
  destruct (Js.array_index k) as [i|]; [|exact IH].
  eapply perm_trans.
  + apply Permutation_map, insert_index_perm.
  + simpl. now apply perm_skip.
Qed.

Lemma filter_split_perm {A} (p : A -> bool) (l : list A) :
Permutation (filter p l ++ filter (fun x => negb (p x)) l) l.
Proof.
induction l as [|x l IH]; simpl.
- constructor.
- destruct (p x); simpl.
  + now apply perm_skip.
  + apply Permutation_sym, Permutation_cons_app, Permutation_sym, IH.
Qed.

Lemma entries_perm {V} (o : Js.object V) : Permutation (Js.entries o) o.
Proof.
unfold Js.entries, Js.named_entries.
eapply perm_trans; [|apply (filter_split_perm
                              (fun e => Js.is_array_index (fst e)))].
apply Permutation_app_tail, index_entries_perm.
Qed.

Lemma insert_index_sorted {V} i (e : string * V) l :
Sorted by_fst l -> Sorted by_fst (Js.insert_index i e l).
Proof.
induction l as [|[j e'] l IH]; simpl; intros Hs.
- repeat constructor.
- destruct (N.leb_spec i j) as [Hle|Hlt].
  + constructor; [exact Hs | constructor; exact Hle].
  + inversion Hs as [|? ? Hs' Hhd]; subst.
    constructor; [apply IH, Hs'|].
    destruct l as [|[j' e''] l]; simpl.
    * constructor. unfold by_fst. simpl. lia.
    * destruct (i <=? j')%N; constructor.
      -- unfold by_fst. simpl. lia.
      -- inversion Hhd; subst. assumption.
Qed.

Lemma index_entries_sorted {V} (o : Js.object V) :
Sorted by_fst (Js.index_entries o).
Proof.
induction o as [|[k v] o IH]; simpl.
- constructor.
- destruct (Js.array_index k); [now apply insert_index_sorted | exact IH].
Qed.

Lemma index_entries_tagged {V} (o : Js.object V) :
Forall (fun x => Js.array_index (fst (snd x)) = Some (fst x))
       (Js.index_entries o).
Proof.
induction o as [|[k v] o IH]; simpl.
- constructor.
- destruct (Js.array_index k) as [i|] eqn:E; [|exact IH].
  rewrite Forall_forall in *. intros x Hin.
  apply In_insert_index in Hin. destruct Hin as [->|Hin]; [exact E|].
  now apply IH.
Qed.

Lemma sorted_by_index l :
Sorted by_fst l ->
Forall (fun x => Js.array_index (fst (snd x)) = Some (fst x)) l ->
Sorted by_index (map snd l).
Proof.
induction 1 as [|x l Hs IH Hhd]; intros HF; simpl.
- constructor.
- inversion HF as [|? ? Hx HF']; subst.
  constructor; [now apply IH|].
  destruct Hhd as [|y l' Hxy]; simpl; constructor.
  inversion HF' as [|? ? Hy _]; subst.
  unfold by_index, route_index. rewrite Hx, Hy. exact Hxy.
Qed.

Lemma all_chars_app p a b :
Js.all_chars p (a ++ b) = Js.all_chars p a && Js.all_chars p b.
Proof.
induction a as [|c a IH]; simpl; [reflexivity|].
rewrite IH. now rewrite andb_assoc.
Qed.

End ManifestMore.

(** X1.  [writeTypes] throws exactly when a contributing route is the
    name of a member of [Object.prototype]; it then throws a TypeError
    before anything is written.  In every other case it succeeds and
    its first write is the manifest. *)
Theorem writeTypes_throws_iff_inherited_route `{ext : Externals}
        (w : World) :
  let n := nitro w in
  (has_inherited_route n = true ->
   writeTypes w
   = (Throw (TypeError "routeTypes[mw.route].push is not a function"), w))
  /\ (has_inherited_route n = false ->
      fst (writeTypes w) = Ok tt
      /\ exists text more,
          written writeTypes w
          = EWriteFile (manifest_file n) (Text text) :: more).
Proof.
  intros n. pose proof (writeTypes_run w) as Hrun. fold n in Hrun.
  rewrite collect_push_all in Hrun. unfold has_inherited_route.
  split; intros Hr.
  - rewrite push_all_inherited in Hrun by (constructor || assumption).
    exact Hrun.
  - rewrite push_all_plain in Hrun by assumption.
    unfold written. rewrite Hrun. split; [reflexivity|].
    simpl. rewrite skipn_length_app.
    unfold types_events. eexists. eexists. reflexivity.
Qed.

(** The route [constructor], and the two handlers of [/status]. *)
Lemma writeTypes_throws_iff_witness :
  fst (writeTypes (ext := Demo.working) (Demo.start Demo.inherited_route))
  = Throw (TypeError "routeTypes[mw.route].push is not a function")
  /\ fst (writeTypes (ext := Demo.working) (Demo.start Demo.status_twice))
     = Ok tt.
Proof.
  split.
  - rewrite (proj1 (writeTypes_throws_iff_inherited_route
                      (ext := Demo.working)
                      (Demo.start Demo.inherited_route)) eq_refl).
    reflexivity.
  - apply (proj2 (writeTypes_throws_iff_inherited_route
                    (ext := Demo.working) (Demo.start Demo.status_twice))).
    reflexivity.
Defined.

(** X2.  When the loop of [writeTypes] succeeds, the manifest has one
    line for each distinct route of the contributing descriptors and no
    other: the enumerated entries are a rearrangement of the routes in
    discovery order, each with the type expressions of all its handlers
    in handler order, and no route is listed twice. *)
Theorem manifest_lists_each_route_once `{ext : Externals}
        (n : Nitro) (routeTypes : Js.object (list string)) :
  collect n (middleware n) [] = Ok routeTypes ->
  Permutation (Js.entries routeTypes) (discovery_entries n)
  /\ NoDup (map fst (Js.entries routeTypes)).
Proof.
  intros Hc. apply collect_ok_inv in Hc. destruct Hc as [_ ->].
  pose proof (entries_perm (discovery_entries n)) as Hp.
  split; [exact Hp|].
  apply (Permutation_NoDup (l := map fst (discovery_entries n))).
  - apply Permutation_sym, Permutation_map, Hp.
  - unfold discovery_entries, discovery_routes.
    rewrite map_map. simpl. rewrite map_id. apply first_seen_NoDup.
Qed.

(** Numeric routes are rearranged, not lost. *)
Lemma manifest_lists_each_route_once_witness :
  exists routeTypes,
    collect (ext := Demo.working) Demo.numeric_routes
            (middleware Demo.numeric_routes) [] = Ok routeTypes
    /\ Permutation (Js.entries routeTypes)
                   (discovery_entries (ext := Demo.working)
                      Demo.numeric_routes)
    /\ NoDup (map fst (Js.entries routeTypes)).
Proof.
  eexists. split; [vm_compute; reflexivity|].
  apply (manifest_lists_each_route_once (ext := Demo.working)
           Demo.numeric_routes).
  vm_compute. reflexivity.
Defined.

(** X3.  The order of the route lines: first the routes that are array
    indices, by ascending numeric value, then all other routes in
    discovery order. *)
Theorem manifest_order `{ext : Externals}
        (n : Nitro) (routeTypes : Js.object (list string)) :
  collect n (middleware n) [] = Ok routeTypes ->
  exists numeric,
    Js.entries routeTypes
    = numeric ++ filter (fun e => negb (index_route e)) (discovery_entries n)
    /\ Permutation numeric (filter index_route (discovery_entries n))
    /\ Sorted by_index numeric.
Proof.
  intros Hc. apply collect_ok_inv in Hc. destruct Hc as [_ ->].
  exists (map snd (Js.index_entries (discovery_entries n))).
  split; [reflexivity|]. split.
  - apply index_entries_perm.
  - apply sorted_by_index;
      [apply index_entries_sorted | apply index_entries_tagged].
Qed.

(** Routes [10], [/b], [9], [/a]: the lines are [9], [10], [/b], [/a]. *)
Lemma manifest_order_witness :
  let n := Demo.context false "node-server"
             [ Demo.declare "10" "/work/x.ts"; Demo.declare "/b" "/work/b.ts";
               Demo.declare "9" "/work/y.ts"; Demo.declare "/a" "/work/a.ts" ]
             [] in
  exists routeTypes numeric,
    collect (ext := Demo.working) n (middleware n) [] = Ok routeTypes
    /\ map fst (Js.entries routeTypes) = ["9"; "10"; "/b"; "/a"]
    /\ Js.entries routeTypes
       = numeric ++ filter (fun e => negb (index_route e))
                      (discovery_entries (ext := Demo.working) n)
    /\ Sorted by_index numeric.
Proof.
  intros n.
  destruct (manifest_order (ext := Demo.working) n
              (discovery_entries (ext := Demo.working) n))
    as [numeric [H1 [_ H3]]]; [vm_compute; reflexivity|].
  exists (discovery_entries (ext := Demo.working) n), numeric.
  split; [vm_compute; reflexivity|]. split; [reflexivity|].
  split; assumption.
Defined.

(** X4.  Descriptors with an inline handler, without a route or with an
    empty route never influence the loop of [writeTypes]: two handler
    lists with the same contributing descriptors give the same object,
    or the same exception. *)
Theorem non_contributing_descriptors_ignored `{ext : Externals}
        (n : Nitro) (mws mws' : list NitroEventHandler)
        (o : Js.object (list string)) :
  contributions mws = contributions mws' ->
  collect n mws o = collect n mws' o.
Proof.
  intros Heq. rewrite !collect_push_all. now rewrite Heq.
Qed.

(** An inline handler, a descriptor without route and one with an empty
    route, among the two handlers of [/status]. *)
Lemma non_contributing_descriptors_ignored_witness :
  collect (ext := Demo.working) Demo.status_twice
    [ {| route := Some "/x"; handler := HandlerInline |};
      Demo.declare "/status" "/work/a.ts";
      {| route := None; handler := HandlerPath "/work/c.ts" |};
      Demo.declare "" "/work/d.ts";
      Demo.declare "/status" "/work/b.ts" ] []
  = collect (ext := Demo.working) Demo.status_twice
      [ Demo.declare "/status" "/work/a.ts";
        Demo.declare "/status" "/work/b.ts" ] [].
Proof.
  apply (non_contributing_descriptors_ignored (ext := Demo.working)).
  reflexivity.
Defined.

(** X5.  The import path of a handler loses one final extension of
    lower-case letters, and nothing else: a path that ends in a dot
    followed by lower-case letters loses exactly that ending, any other
    path is kept as it is. *)
Theorem strip_extension_last_lowercase `{ext : Externals} (n : Nitro) :
  (forall s e,
      e <> "" -> Js.all_chars Js.is_lower e = true ->
      Js.strip_extension (s ++ "." ++ e) = s)
  /\ (forall s,
         (forall p e, s = (p ++ "." ++ e)%string ->
                      e = "" \/ Js.all_chars Js.is_lower e = false) ->
         Js.strip_extension s = s)
  /\ (forall h s e,
         relative (typesDir n) h = (s ++ "." ++ e)%string ->
         e <> "" -> Js.all_chars Js.is_lower e = true ->
         relativePath n h = s).
Proof.
  assert (H1 : forall s e,
             e <> "" -> Js.all_chars Js.is_lower e = true ->
             Js.strip_extension (s ++ "." ++ e) = s).
  { intros s e Hne Hlow.
    change ("." ++ e)%string with (String "."%char e).
    induction s as [|c s IH]; simpl.
    - rewrite Hlow. destruct e; [contradiction | reflexivity].
    - rewrite all_chars_app. simpl.
      rewrite andb_false_r, andb_false_r. now rewrite IH. }
  split; [exact H1|]. split.
  - intros s. induction s as [|c s IH]; intros Hno; simpl; [reflexivity|].
    destruct ((c =? ".")%char && negb (s =? "") && Js.all_chars Js.is_lower s)
      eqn:E.
    + apply andb_true_iff in E. destruct E as [E Hlow].
      apply andb_true_iff in E. destruct E as [Hc Hne].
      apply Ascii.eqb_eq in Hc. subst c.
      destruct (Hno "" s eq_refl) as [->|Hf]; [discriminate | congruence].
    + f_equal. apply IH. intros p e Hs. apply (Hno (String c p) e).
      simpl. now rewrite Hs.
  - intros h s e Hrel Hne Hlow. unfold relativePath, typesDir in *.
    rewrite Hrel. now apply H1.
Qed.

(** A declaration file loses [.ts] only; an upper-case extension stays. *)
Lemma strip_extension_witness :
  Js.strip_extension ("../../api/hello.d" ++ "." ++ "ts") = "../../api/hello.d"
  /\ Js.strip_extension "../../api/hello.TS" = "../../api/hello.TS".
Proof.
  split.
  - apply (proj1 (strip_extension_last_lowercase
                    (ext := Demo.working) Demo.status_twice));
      [discriminate | reflexivity].
  - reflexivity.
Defined.

(** ** More on [_build] *)

Section BuildMore.

Context `{ext : Externals}.

Lemma _build_stage_failure cfg w w1 e :
before_bundling cfg w = (Throw e, w1) -> _build cfg w = (Throw e, w1).
Proof.
intros Hb. unfold _build, before_bundling, bind in *.
destruct (scan w) as [[u0|e0] w0]; [|exact Hb].
destruct (writeTypes w0) as [[u2|e2] w2]; [|exact Hb].
destruct (_snapshot w2) as [[u3|e3] w3]; [|exact Hb].
unfold emit in Hb. simpl in Hb. discriminate.
Qed.

(** [_build] once the bundler has answered with a build. *)
Lemma _build_answered cfg w w1 b :
before_bundling cfg w = (Ok tt, w1) ->
rollup_rollup cfg (nitro w1) = inr b ->
_build cfg w
= match callHook "compiled" (nitro w1) with
  | Ok n2 =>
      (Ok tt,
       {| nitro := n2;
          trace := trace w1 ++ output_events cfg b (nitro w1)
                   ++ hint_events (relative cwd (output_dir (options n2)))
                        (commands_preview (options (nitro w1)))
                        (commands_deploy (options (nitro w1))) |})
  | Throw e =>
      (Throw e,
       {| nitro := nitro w1;
          trace := trace w1 ++ output_events cfg b (nitro w1) |})
  end.
Proof.
intros Hb Hr. unfold _build, before_bundling, bind in *.
destruct (scan w) as [[u0|e0] w0]; [|discriminate].
destruct (writeTypes w0) as [[u2|e2] w2]; [|discriminate].
destruct (_snapshot w2) as [[u3|e3] w3]; [|discriminate].
unfold emit, get_nitro in *. simpl in *.
inversion Hb; subst w1. simpl in *. rewrite Hr.
unfold ret, when, call_hook, hint, bind, emit, get_nitro, lift, set_nitro,
  when, ret, output_events, hint_events.
simpl.
destruct (1 <? logLevel (options (nitro w3)))%N; simpl;
  destruct (callHook "compiled" (nitro w3)) as [n2|e]; simpl;
  try (now rewrite <- !app_assoc);
  destruct (Js.truthy (commands_preview (options (nitro w3)))); simpl;
  destruct (Js.truthy (commands_deploy (options (nitro w3)))); simpl;
  now rewrite <- !app_assoc.
Qed.

Lemma report_all_no_bundle own_id es : forall w,
exists evs,
  trace (snd (report_all own_id es w)) = trace w ++ evs
  /\ existsb is_bundle_write evs = false.
Proof.
induction es as [|e es IH]; intros w; simpl.
- exists []. now rewrite app_nil_r.
- unfold bind, report, lift, emit.
  destruct (error_path (Js.or_else (id e) own_id)) as [p|x]; simpl.
  + match goal with
    | |- context [report_all own_id es ?w1] =>
        destruct (IH w1) as [evs [Ht Hq]]
    end.
    eexists. rewrite Ht. simpl. rewrite <- app_assoc.
    split; [reflexivity|]. simpl. exact Hq.
  + exists []. now rewrite app_nil_r.
Qed.

Lemma format_failure_no_bundle f w :
exists evs,
  trace (snd (format_failure f w)) = trace w ++ evs
  /\ existsb is_bundle_write evs = false.
Proof.
unfold format_failure, bind, lift.
destruct (underlying f) as [es|x].
- apply report_all_no_bundle.
- exists []. now rewrite app_nil_r.
Qed.

Lemma existsb_map_false {A} (f : A -> event) (l : list A) :
(forall a, is_bundle_write (f a) = false) ->
existsb is_bundle_write (map f l) = false.
Proof.
intros Hf. induction l as [|a l IH]; simpl; [reflexivity|].
now rewrite Hf, IH.
Qed.

Lemma before_bundling_no_bundle cfg w :
exists evs,
  trace (snd (before_bundling cfg w)) = trace w ++ evs
  /\ existsb is_bundle_write evs = false.
Proof.
rewrite before_bundling_run.
destruct (scanHandlers (nitro w)) as [n1|e];
  [|eexists; split; reflexivity].
destruct (collect n1 (middleware n1) []) as [routeTypes|e];
  [|eexists; split; reflexivity].
assert (Ht : existsb is_bundle_write (types_events n1 routeTypes) = false)
  by (unfold types_events;
      destruct (typescript_generateTsConfig (options n1)); reflexivity).
simpl. destruct (snapshot_skipped n1).
- exists ([EScanHandlers] ++ types_events n1 routeTypes
          ++ [ELog LogStart "Building server..."; ERollup cfg]).
  split; [simpl; now rewrite <- !app_assoc|].
  rewrite !existsb_app, Ht. reflexivity.
- destruct (snapshotStorage (registered n1)) as [data|e]; simpl.
  + exists ([EScanHandlers] ++ types_events n1 routeTypes
            ++ snapshot_events (storageDir n1) data
            ++ [ELog LogStart "Building server..."; ERollup cfg]).
    split; [simpl; now rewrite <- !app_assoc|].
    unfold snapshot_events.
    rewrite !existsb_app, Ht, !existsb_map_false by reflexivity.
    reflexivity.
  + exists ([EScanHandlers] ++ types_events n1 routeTypes).
    split; [reflexivity|]. rewrite existsb_app, Ht. reflexivity.
Qed.

Lemma existsb_false_In (evs : list event) e :
existsb is_bundle_write evs = false -> In e evs ->
is_bundle_write e = false.
Proof.
intros Hex Hin. destruct (is_bundle_write e) eqn:E; [|reflexivity].
assert (existsb is_bundle_write evs = true)
  by (apply existsb_exists; now exists e).
congruence.
Qed.

(** *** [rewriteRelativePaths] *)


Lemma length_append (a b : string) :
String.length (a ++ b) = String.length a + String.length b.
Proof. induction a as [|c a IH]; simpl; [reflexivity | now rewrite IH]. Qed.











End BuildMore.

(** X6.  [_build] stops at the first stage that fails, and what the
    stages before it did stays done.  A scan that rejects ends the build
    after the scan; a [writeTypes] that throws ends it with the scanned
    context and no file written; a storage collaborator that rejects
    ends it after the type files are written and the snapshot directory
    is registered.  In none of these cases is the bundler called. *)
Theorem _build_stops_at_first_failure `{ext : Externals}
        (cfg : RollupConfig) (w : World) (e : exn) :
  (scanHandlers (nitro w) = Throw e ->
   _build cfg w
   = (Throw e, {| nitro := nitro w; trace := trace w ++ [EScanHandlers] |}))
  /\ (forall n1,
         scanHandlers (nitro w) = Ok n1 ->
         collect n1 (middleware n1) [] = Throw e ->
         _build cfg w
         = (Throw e, {| nitro := n1; trace := trace w ++ [EScanHandlers] |}))
  /\ (forall n1 routeTypes,
         scanHandlers (nitro w) = Ok n1 ->
         collect n1 (middleware n1) [] = Ok routeTypes ->
         snapshot_skipped n1 = false ->
         snapshotStorage (registered n1) = Throw e ->
         _build cfg w
         = (Throw e,
            {| nitro := registered n1;
               trace := trace w ++ [EScanHandlers]
                        ++ types_events n1 routeTypes |})).
Proof.
  split; [|split].
  - intros Hs. apply _build_stage_failure.
    rewrite before_bundling_run, Hs. reflexivity.
  - intros n1 Hs Hc. apply _build_stage_failure.
    rewrite before_bundling_run, Hs, Hc. reflexivity.
  - intros n1 routeTypes Hs Hc Hk Hd. apply _build_stage_failure.
    rewrite before_bundling_run, Hs, Hc. simpl. rewrite Hk, Hd. reflexivity.
Qed.

(** A scan that rejects; the route [constructor]; a storage that
    rejects. *)
Lemma _build_stops_at_first_failure_witness :
  fst (_build (ext := Strict.failing true false false) 0
         (Demo.start (Demo.with_storage "node-server")))
  = Throw (Rejected "scan")
  /\ trace (snd (_build (ext := Strict.failing false true false) 0
                   (Demo.start (Demo.with_storage "node-server"))))
     = [EScanHandlers]
         ++ types_stage (ext := Strict.failing false true false)
              (Demo.rescan (Demo.with_storage "node-server")).
Proof.
  split.
  - rewrite (proj1 (_build_stops_at_first_failure
                      (ext := Strict.failing true false false) 0
                      (Demo.start (Demo.with_storage "node-server"))
                      (Rejected "scan")) eq_refl).
    reflexivity.
  - rewrite (proj2 (proj2 (_build_stops_at_first_failure
                             (ext := Strict.failing false true false) 0
                             (Demo.start (Demo.with_storage "node-server"))
                             (Rejected "storage")))
               (Demo.rescan (Demo.with_storage "node-server"))
               (discovery_entries (ext := Strict.failing false true false)
                  (Demo.rescan (Demo.with_storage "node-server")))
               eq_refl eq_refl eq_refl eq_refl).
    reflexivity.
Defined.

(** X7.  After the bundler has answered with a build, [_build] writes
    the bundle, then [nitro.json], logs, prints the tree when the log
    level is above 1, and calls the hook [compiled].  The build record
    and the hints take the preset and the commands from the context as
    it is before the hook; the output directory in the hints is read
    after the hook.  When the hook rejects, the bundle and [nitro.json]
    are already written and no hint is logged. *)
Theorem _build_after_bundling `{ext : Externals}
        (cfg : RollupConfig) (w w1 : World) (b : RollupBuild) :
  before_bundling cfg w = (Ok tt, w1) ->
  rollup_rollup cfg (nitro w1) = inr b ->
  _build cfg w
  = match callHook "compiled" (nitro w1) with
    | Ok n2 =>
        (Ok tt,
         {| nitro := n2;
            trace := trace w1 ++ output_events cfg b (nitro w1)
                     ++ hint_events (relative cwd (output_dir (options n2)))
                          (commands_preview (options (nitro w1)))
                          (commands_deploy (options (nitro w1))) |})
    | Throw e =>
        (Throw e,
         {| nitro := nitro w1;
            trace := trace w1 ++ output_events cfg b (nitro w1) |})
    end.
Proof.
  apply _build_answered.
Qed.

(** A build that succeeds, and one whose hook [compiled] rejects. *)
Lemma _build_after_bundling_witness :
  let w := Demo.start Demo.status_twice in
  (exists w2, _build (ext := Demo.working) 2 w = (Ok tt, w2)
              /\ In (ELog LogSuccess
                       "You can preview this build using `node .output/server/index.mjs`")
                    (trace w2))
  /\ fst (_build (ext := Strict.failing false false true) 2 w)
     = Throw (Rejected "hook").
Proof.
  intros w. split.
  - eexists. split.
    + rewrite (_build_after_bundling (ext := Demo.working) 2 w
                 (snd (before_bundling (ext := Demo.working) 2 w)) tt
                 eq_refl eq_refl).
      reflexivity.
    + vm_compute. tauto.
  - rewrite (_build_after_bundling (ext := Strict.failing false false true)
               2 w
               (snd (before_bundling (ext := Strict.failing false false true)
                       2 w)) tt eq_refl eq_refl).
    reflexivity.
Defined.

(** X8.  A bundle is written only by a build whose scan, type manifest
    and snapshot succeeded and whose bundler answered with that bundle;
    it is written with the configuration [_build] was given. *)
Theorem bundle_written_only_after_success `{ext : Externals}
        (cfg c : RollupConfig) (w : World) (b : RollupBuild) :
  In (EBundleWrite b c) (written (_build cfg) w) ->
  exists w1,
    before_bundling cfg w = (Ok tt, w1)
    /\ rollup_rollup cfg (nitro w1) = inr b
    /\ c = cfg.
Proof.
  intros Hin.
  destruct (before_bundling_no_bundle cfg w) as [evs [Ht Hq]].
  destruct (before_bundling cfg w) as [[[]|e] w1] eqn:Hb; simpl in Ht.
  - destruct (rollup_rollup cfg (nitro w1)) as [f|b'] eqn:Hr.
    + exfalso. unfold written in Hin.
      rewrite (_build_rejected cfg w w1 f Hb Hr) in Hin. simpl in Hin.
      destruct (format_failure_no_bundle f w1) as [evs' [Ht' Hq']].
      rewrite Ht', Ht, <- app_assoc, skipn_length_app in Hin.
      apply in_app_or in Hin.
      destruct Hin as [Hin|Hin];
        [apply (existsb_false_In _ _ Hq) in Hin
        | apply (existsb_false_In _ _ Hq') in Hin]; discriminate.
    + exists w1. split; [reflexivity|].
      unfold written in Hin.
      rewrite (_build_answered cfg w w1 b' Hb Hr) in Hin.
      assert (Hcase : In (EBundleWrite b c)
                         (evs ++ output_events cfg b' (nitro w1))
                      \/ exists l, In (EBundleWrite b c) l
                                   /\ existsb is_bundle_write l = false).
      { destruct (callHook "compiled" (nitro w1)) as [n2|e];
          cbn [snd trace] in Hin;
          rewrite Ht, <- app_assoc, skipn_length_app in Hin.
        - rewrite app_assoc in Hin. apply in_app_or in Hin.
          destruct Hin as [Hin|Hin]; [now left|]. right.
          eexists. split; [exact Hin|]. unfold hint_events.
          destruct (Js.truthy (commands_preview (options (nitro w1))));
            destruct (Js.truthy (commands_deploy (options (nitro w1))));
            reflexivity.
        - now left. }
      destruct Hcase as [Hin'|[l [Hin' Hl]]].
      * apply in_app_or in Hin'. destruct Hin' as [Hin'|Hin'].
        -- apply (existsb_false_In _ _ Hq) in Hin'. discriminate.
        -- unfold output_events in Hin'. simpl in Hin'.
           destruct Hin' as [H0|[H0|[H0|[H0|Hrest]]]];
             try discriminate.
           ++ inversion H0. now subst.
           ++ destruct (1 <? logLevel (options (nitro w1)))%N;
                simpl in Hrest; intuition discriminate.
      * apply (existsb_false_In _ _ Hl) in Hin'. discriminate.
  - exfalso. unfold written in Hin.
    rewrite (_build_stage_failure cfg w w1 e Hb) in Hin. cbn [snd] in Hin.
    rewrite Ht, skipn_length_app in Hin.
    apply (existsb_false_In _ _ Hq) in Hin. discriminate.
Qed.

(** The bundle of a build that succeeds. *)
Lemma bundle_written_only_after_success_witness :
  let w := Demo.start Demo.status_twice in
  In (@EBundleWrite Demo.opaque tt 2) (written (_build (ext := Demo.working) 2) w)
  /\ exists w1,
      before_bundling (ext := Demo.working) 2 w = (Ok tt, w1)
      /\ rollup_rollup (Externals := Demo.working) 2 (nitro w1) = inr tt
      /\ 2 = 2.
Proof.
  intros w.
  assert (Hin : In (@EBundleWrite Demo.opaque tt 2)
                   (written (_build (ext := Demo.working) 2) w))
    by (vm_compute; tauto).
  split; [exact Hin|].
  exact (bundle_written_only_after_success (ext := Demo.working) 2 2 w tt Hin).
Defined.





(** ** More on watch mode *)

Section WatchMore.

Context `{ext : Externals}.

Lemma step_keeps_watcher s s' :
step s s' -> rollupWatcher s <> None -> rollupWatcher s' <> None.
Proof.
intros Hstep Hw. destruct Hstep as [s Hat Hp|s Hat|s Hat|s event Hc|s].
- destruct (reload_close_fields s) as [_ [_ [Hr _]]]. now rewrite Hr.
- destruct (reload_scan_fields s) as [_ [Hr _]]. now rewrite Hr.
- destruct (reload_start_fields s) as [_ [Hr _]]. rewrite Hr. discriminate.
- destruct (on_all_fields event s) as [_ [_ [Hr _]]]. now rewrite Hr.
- destruct (on_close_fields s) as [_ [Hr _]]. now rewrite Hr.
Qed.

(** *** The flags of the session along the stages *)

Lemma reload_close_flags s :
reload_pending (reload_close s) = false
/\ reloadWacher_closed (reload_close s) = reloadWacher_closed s.
Proof.
unfold reload_close, run, emit. destruct (rollupWatcher s); now split.
Qed.

Lemma reload_scan_flags s :
reload_pending (snd (reload_scan s)) = reload_pending s
/\ reloadWacher_closed (snd (reload_scan s)) = reloadWacher_closed s
/\ (reload_at (snd (reload_scan s)) = Starting
    \/ reload_at (snd (reload_scan s)) = Idle).
Proof.
unfold reload_scan, run. destruct (scan (world s)) as [[u|e] w']; simpl;
  repeat split; auto.
Qed.

Lemma reload_start_flags s :
reload_pending (snd (reload_start s)) = reload_pending s
/\ reloadWacher_closed (snd (reload_start s)) = reloadWacher_closed s.
Proof.
unfold reload_start, run.
match goal with
| |- context [writeTypes ?w] => destruct (writeTypes w) as [r w']
end.
now split.
Qed.

Lemma on_close_flags s :
reload_pending (snd (on_close s)) = reload_pending s
/\ (reloadWacher_closed s = true ->
    reloadWacher_closed (snd (on_close s)) = true).
Proof.
unfold on_close. destruct (rollupWatcher s); simpl; now split.
Qed.

Lemma count_starts_app (a b : list event) :
count_starts (a ++ b) = count_starts a + count_starts b.
Proof.
unfold count_starts. now rewrite filter_app, length_app.
Qed.

Lemma count_starts_quiet (evs : list event) :
forallb quiet evs = true -> count_starts evs = 0.
Proof.
unfold count_starts. induction evs as [|e evs IH]; simpl; [reflexivity|].
intros Hq. apply andb_true_iff in Hq. destruct Hq as [He Hq].
destruct e; simpl in *; try discriminate; now apply IH.
Qed.

(** One step of a session whose outer watcher is closed. *)
Lemma step_after_shutdown s s' :
step s s' -> reloadWacher_closed s = true ->
reloadWacher_closed s' = true
/\ exists new,
    trace (world s') = trace (world s) ++ new
    /\ count_starts new + reloads_due s' <= reloads_due s.
Proof.
intros Hstep Hcl. unfold reloads_due.
destruct Hstep as [s Hat Hp|s Hat|s Hat|s event Hc|s].
- destruct (reload_close_flags s) as [Hp' Hcl'].
  destruct (reload_close_fields s) as [_ [_ [_ [_ Hat']]]].
  split; [congruence|]. exists (close_stage s).
  split; [apply reload_close_trace|].
  rewrite Hp', Hat', Hp, Hat.
  assert (count_starts (close_stage s) = 0)
    by (unfold close_stage; now destruct (rollupWatcher s)).
  lia.
- destruct (reload_scan_flags s) as [Hp' [Hcl' Hat']].
  split; [congruence|]. exists [EScanHandlers].
  split; [apply reload_scan_trace|].
  rewrite Hp', Hat. destruct Hat' as [-> | ->]; simpl; lia.
- destruct (reload_start_flags s) as [Hp' Hcl'].
  destruct (reload_start_fields s) as [_ [_ Hat']].
  split; [congruence|]. eexists. split; [apply reload_start_trace|].
  rewrite count_starts_app, Hp', Hat', Hat.
  rewrite (count_starts_quiet _ (types_stage_quiet (nitro (world s)))).
  unfold start_stage. simpl. lia.
- congruence.
- destruct (on_close_flags s) as [Hp' Hcl'].
  destruct (on_close_fields s) as [_ [_ Hat']].
  split; [now apply Hcl'|]. eexists. split; [apply on_close_trace|].
  rewrite Hp', Hat'.
  assert (count_starts
            match rollupWatcher s with
            | Some h => [ERollupWatcherClose h; EReloadWatcherClose]
            | None => []
            end = 0) by now destruct (rollupWatcher s).
  lia.
Qed.

(** The session after the close stage and the scan of a reload. *)
Lemma reload_scanned w cfg s :
steps (_watch w cfg) s -> reload_at s = Idle -> reload_pending s = true ->
exists evs,
  trace (world (snd (reload_scan (reload_close s)))) = trace w ++ evs
  /\ singular evs /\ open_watchers evs = [].
Proof.
intros Hs Hat Hp.
assert (Hok : session_ok w (reload_close s)).
{ eapply session_ok_step; [apply (session_ok_steps w cfg s Hs)|].
  now apply step_reload_close. }
destruct (reload_close_fields s) as [_ [_ [_ [_ Hat']]]].
destruct Hok as [evs [Ht [Hsing Ho]]].
destruct Ho as [Ho|[Hidle _]]; [|congruence].
destruct (singular_quiet [EScanHandlers] evs Hsing eq_refl) as [H1 H2].
exists (evs ++ [EScanHandlers]).
rewrite reload_scan_trace, Ht, <- app_assoc.
split; [reflexivity|]. split; [exact H1 | now rewrite H2].
Qed.

End WatchMore.

(** X13.  Once [rollupWatcher] is assigned it stays assigned, whatever
    the session does next; from then on the listener of [close] does
    not throw. *)
Theorem close_does_not_throw_once_started `{ext : Externals}
        (s s' : Session) :
  steps s s' ->
  rollupWatcher s <> None ->
  rollupWatcher s' <> None /\ fst (on_close s') = Ok tt.
Proof.
  intros Hs Hw.
  assert (Hw' : rollupWatcher s' <> None).
  { induction Hs as [s|s1 s2 s3 _ IH H23]; [exact Hw|].
    eapply step_keeps_watcher; [exact H23 | now apply IH]. }
  split; [exact Hw'|]. unfold on_close.
  destruct (rollupWatcher s'); [reflexivity | contradiction].
Qed.

(** After the first reload, a scan that rejects does not unassign the
    watcher. *)
Lemma close_does_not_throw_witness :
  let s1 := snd (reload (ext := Strict.flaky)
                   (_watch (ext := Strict.flaky)
                      (Demo.start Demo.dev_context) 0)) in
  let s2 := snd (reload (ext := Strict.flaky) (on_all "unlink" s1)) in
  fst (reload (ext := Strict.flaky) (on_all "unlink" s1))
  = Throw (Rejected "scan")
  /\ rollupWatcher s2 <> None /\ fst (on_close s2) = Ok tt.
Proof.
  intros s1 s2. split; [reflexivity|].
  apply (close_does_not_throw_once_started (ext := Strict.flaky) s1 s2).
  - apply (steps_trans (ext := Strict.flaky) _ (on_all "unlink" s1)).
    + eapply steps_next; [apply steps_refl | now apply step_fs_event].
    + apply (reload_steps (ext := Strict.flaky)); reflexivity.
  - discriminate.
Defined.

(** X14.  In a session whose [rollupWatcher] is assigned, the listener of
    [close] closes that watcher and then the outer watcher; afterwards
    no bundler watcher is open.  A second call does not throw: it issues the two [close]
    calls again on the same handles. *)
Theorem close_closes_both_watchers `{ext : Externals}
        (w : World) (cfg : RollupConfig) (s : Session) (h : nat) :
  steps (_watch w cfg) s ->
  rollupWatcher s = Some h ->
  let s1 := snd (on_close s) in
  fst (on_close s) = Ok tt
  /\ trace (world s1)
     = trace (world s) ++ [ERollupWatcherClose h; EReloadWatcherClose]
  /\ reloadWacher_closed s1 = true
  /\ (exists evs, trace (world s1) = trace w ++ evs
                  /\ open_watchers evs = [])
  /\ fst (on_close s1) = Ok tt
  /\ trace (world (snd (on_close s1)))
     = trace (world s1) ++ [ERollupWatcherClose h; EReloadWatcherClose].
Proof.
  intros Hs Hw s1.
  pose proof (on_close_trace s) as Ht. rewrite Hw in Ht. fold s1 in Ht.
  assert (Hw1 : rollupWatcher s1 = Some h).
  { destruct (on_close_fields s) as [_ [Hr _]]. fold s1 in Hr. congruence. }
  assert (Hc1 : reloadWacher_closed s1 = true)
    by (unfold s1, on_close; rewrite Hw; reflexivity).
  split; [unfold on_close; now rewrite Hw|].
  split; [exact Ht|]. split; [exact Hc1|]. split; [|split].
  - destruct (session_ok_close_event w s s1 h [EReloadWatcherClose]
                (session_ok_steps w cfg s Hs) Hw Ht eq_refl)
      as [evs [H1 [_ H3]]].
    now exists evs.
  - unfold on_close. now rewrite Hw1.
  - pose proof (on_close_trace s1) as Ht1. now rewrite Hw1 in Ht1.
Qed.

(** The close after the first reload. *)
Lemma close_closes_both_watchers_witness :
  let w := Demo.start Demo.dev_context in
  let s := snd (reload (ext := Demo.working)
                  (_watch (ext := Demo.working) w 0)) in
  fst (on_close s) = Ok tt
  /\ exists evs, trace (world (snd (on_close s))) = trace w ++ evs
                 /\ open_watchers evs = [].
Proof.
  intros w s.
  destruct (close_closes_both_watchers (ext := Demo.working) w 0 s 0)
    as [H1 [_ [_ [H4 _]]]].
  - apply (reload_steps (ext := Demo.working)); reflexivity.
  - reflexivity.
  - split; [exact H1 | exact H4].
Defined.

(** X15.  A reload whose scan rejects has closed the previous watcher
    and starts no new one: the call rejects with the error of the scan,
    [rollupWatcher] still holds the closed handle, and no bundler watcher
    is open until a later reload gets past its scan. *)
Theorem reload_scan_rejection_leaves_no_watcher `{ext : Externals}
        (w : World) (cfg : RollupConfig) (s : Session) (e : exn) :
  steps (_watch w cfg) s ->
  reload_at s = Idle -> reload_pending s = true ->
  scanHandlers (nitro (world s)) = Throw e ->
  let s' := snd (reload s) in
  fst (reload s) = Throw e
  /\ rollupWatcher s' = rollupWatcher s
  /\ reload_at s' = Idle
  /\ exists evs, trace (world s') = trace w ++ evs
                 /\ open_watchers evs = [].
Proof.
  intros Hs Hat Hp Hscan s'.
  destruct (reload_scanned w cfg s Hs Hat Hp) as [evs [Ht [_ Ho]]].
  destruct (reload_close_fields s) as [Hn [_ [Hr _]]].
  pose proof (reload_scan_result (reload_close s)) as Hres.
  destruct (reload_scan_fields (reload_close s)) as [_ [Hr' _]].
  rewrite Hn, Hscan in Hres.
  assert (Hre : reload s = (Throw e, snd (reload_scan (reload_close s)))).
  { unfold reload.
    destruct (reload_scan (reload_close s)) as [r s2]. simpl in *.
    now subst r. }
  unfold s'. rewrite Hre. simpl.
  split; [reflexivity|]. split; [congruence|]. split.
  - unfold reload_scan, run. rewrite scan_run, Hn, Hscan. reflexivity.
  - now exists evs.
Qed.

(** The second scan of a session rejects. *)
Lemma reload_scan_rejection_witness :
  let w := Demo.start Demo.dev_context in
  let s1 := on_all "add"
              (snd (reload (ext := Strict.flaky)
                      (_watch (ext := Strict.flaky) w 0))) in
  let s2 := snd (reload (ext := Strict.flaky) s1) in
  fst (reload (ext := Strict.flaky) s1) = Throw (Rejected "scan")
  /\ rollupWatcher s2 = Some 0
  /\ reload_at s2 = Idle
  /\ exists evs, trace (world s2) = trace w ++ evs
                 /\ open_watchers evs = [].
Proof.
  intros w s1 s2.
  assert (Hs : steps (ext := Strict.flaky) (_watch (ext := Strict.flaky) w 0) s1).
  { eapply steps_next.
    - apply (reload_steps (ext := Strict.flaky)); reflexivity.
    - now apply step_fs_event. }
  exact (reload_scan_rejection_leaves_no_watcher (ext := Strict.flaky)
           w 0 s1 (Rejected "scan") Hs eq_refl eq_refl eq_refl).
Defined.

Section WatchLast.

Context `{ext : Externals}.

Lemma writeTypes_result w :
fst (writeTypes w)
= if has_inherited_route (nitro w)
  then Throw (TypeError "routeTypes[mw.route].push is not a function")
  else Ok tt.
Proof.
rewrite writeTypes_run, collect_push_all. unfold has_inherited_route.
destruct (existsb (fun c => Js.inherited (fst c))
                  (contributions (middleware (nitro w)))) eqn:E.
- rewrite push_all_inherited by (constructor || assumption). reflexivity.
- rewrite push_all_plain by assumption. reflexivity.
Qed.

Lemma steps_after_shutdown s s' :
steps s s' -> reloadWacher_closed s = true ->
reloadWacher_closed s' = true
/\ exists new,
    trace (world s') = trace (world s) ++ new
    /\ count_starts new + reloads_due s' <= reloads_due s.
Proof.
intros Hs Hcl. induction Hs as [s|s1 s2 s3 _ IH H23].
- split; [exact Hcl|]. exists []. rewrite app_nil_r.
  split; [reflexivity | simpl; lia].
- destruct (IH Hcl) as [Hcl2 [new [Ht Hc]]].
  destruct (step_after_shutdown s2 s3 H23 Hcl2) as [Hcl3 [new' [Ht' Hc']]].
  split; [exact Hcl3|]. exists (new ++ new').
  split; [rewrite Ht', Ht; now rewrite <- app_assoc|].
  rewrite count_starts_app. lia.
Qed.

End WatchLast.

(** X16.  A reload whose scan succeeds starts the new watcher before it
    writes the types: when [writeTypes] throws, the call rejects and the
    new watcher is nevertheless open and held in [rollupWatcher].  This
    is so also in a session whose outer watcher was closed by the
    listener of [close] while the reload was pending: that reload still
    runs and leaves a bundler watcher open. *)
Theorem reload_starts_watcher_before_types `{ext : Externals}
        (w : World) (cfg : RollupConfig) (s : Session) (n' : Nitro) :
  steps (_watch w cfg) s ->
  reload_at s = Idle -> reload_pending s = true ->
  scanHandlers (nitro (world s)) = Ok n' ->
  let s' := snd (reload s) in
  rollupWatcher s' = Some (watchers s)
  /\ fst (reload s)
     = (if has_inherited_route n'
        then Throw (TypeError "routeTypes[mw.route].push is not a function")
        else Ok tt)
  /\ reloadWacher_closed s' = reloadWacher_closed s
  /\ exists evs, trace (world s') = trace w ++ evs
                 /\ open_watchers evs = [watchers s].
Proof.
  intros Hs Hat Hp Hscan s'.
  destruct (reload_scanned w cfg s Hs Hat Hp) as [evs [Ht [Hsing Ho]]].
  destruct (reload_close_fields s) as [Hn [_ [_ [Hwc _]]]].
  destruct (reload_close_flags s) as [_ Hcl1].
  pose proof (reload_scan_result (reload_close s)) as Hres.
  destruct (reload_scan_fields (reload_close s)) as [_ [_ [Hws _]]].
  destruct (reload_scan_flags (reload_close s)) as [_ [Hcl2 _]].
  rewrite Hn, Hscan in Hres. destruct Hres as [Hok Hn2].
  set (s2 := snd (reload_scan (reload_close s))) in *.
  assert (Hre : reload s = reload_start s2).
  { unfold reload, s2.
    destruct (reload_scan (reload_close s)) as [r s3]. simpl in *.
    now subst r. }
  unfold s'. rewrite Hre.
  destruct (reload_start_fields s2) as [_ [Hw' _]].
  destruct (reload_start_flags s2) as [_ Hcl3].
  split; [rewrite Hw'; congruence|]. split; [|split; [congruence|]].
  - unfold reload_start, run.
    match goal with
    | |- context [writeTypes ?w0] =>
        pose proof (writeTypes_result w0) as Hr;
        destruct (writeTypes w0) as [r w3]
    end.
    simpl in *. now rewrite Hr, Hn2.
  - pose proof (reload_start_trace s2) as Ht'. unfold start_stage in Ht'.
    set (e := ERollupWatch (watchers s2)
                (watch_options (rollupConfig s2) (nitro (world s2)))) in *.
    assert (Hc : open_watchers (evs ++ [e]) = [watchers s2])
      by (rewrite open_watchers_snoc, Ho; reflexivity).
    assert (Hs1 : singular (evs ++ [e]))
      by (apply singular_snoc; [exact Hsing | rewrite Hc; simpl; lia]).
    destruct (singular_quiet _ _ Hs1 (types_stage_quiet (nitro (world s2))))
      as [_ H2].
    exists ((evs ++ [e]) ++ types_stage (nitro (world s2))).
    split; [rewrite Ht', Ht; now rewrite <- !app_assoc|].
    rewrite H2, Hc. congruence.
Qed.

(** A file is added, then the hook [close] is called before the
    debounced reload runs: the reload starts the watcher 1 after the
    shutdown. *)
Lemma reload_starts_watcher_witness :
  let w := Demo.start Demo.dev_context in
  let s1 := snd (reload (ext := Demo.working)
                   (_watch (ext := Demo.working) w 0)) in
  let s2 := snd (on_close (on_all "add" s1)) in
  let s3 := snd (reload (ext := Demo.working) s2) in
  reloadWacher_closed s2 = true
  /\ rollupWatcher s3 = Some 1
  /\ reloadWacher_closed s3 = true
  /\ exists evs, trace (world s3) = trace w ++ evs
                 /\ open_watchers evs = [1].
Proof.
  intros w s1 s2 s3. split; [reflexivity|].
  assert (Hs : steps (ext := Demo.working)
                 (_watch (ext := Demo.working) w 0) s2).
  { eapply steps_next; [eapply steps_next|].
    - apply (reload_steps (ext := Demo.working)); reflexivity.
    - apply (step_fs_event (ext := Demo.working)) with (event := "add").
      reflexivity.
    - apply step_close. }
  destruct (reload_starts_watcher_before_types (ext := Demo.working)
              w 0 s2 (Demo.rescan Demo.dev_context) Hs eq_refl eq_refl eq_refl)
    as [H1 [_ [H3 H4]]].
  split; [exact H1|]. split; [exact H3 | exact H4].
Defined.

(** X17.  After the listener of [close] has closed the outer watcher, no
    further reload is requested.  Whatever the session does from then
    on, it starts at most as many bundler watchers as calls of [reload]
    were pending or running at that moment; with none pending and none
    running it never starts a watcher again. *)
Theorem shutdown_bounds_later_watchers `{ext : Externals}
        (s s' : Session) :
  steps s s' ->
  reloadWacher_closed s = true ->
  reloadWacher_closed s' = true
  /\ exists new,
      trace (world s') = trace (world s) ++ new
      /\ count_starts new + reloads_due s' <= reloads_due s
      /\ (reload_pending s = false -> reload_at s = Idle ->
          count_starts new = 0).
Proof.
  intros Hs Hcl.
  destruct (steps_after_shutdown s s' Hs Hcl) as [Hcl' [new [Ht Hc]]].
  split; [exact Hcl'|]. exists new. split; [exact Ht|]. split; [exact Hc|].
  intros Hp Hat. unfold reloads_due in Hc at 2. rewrite Hp, Hat in Hc.
  simpl in Hc. lia.
Qed.

(** A session is shut down with one reload pending; that reload runs. *)
Lemma shutdown_bounds_later_watchers_witness :
  let w := Demo.start Demo.dev_context in
  let s1 := snd (reload (ext := Demo.working)
                   (_watch (ext := Demo.working) w 0)) in
  let s2 := snd (on_close (on_all "add" s1)) in
  let s3 := snd (reload (ext := Demo.working) s2) in
  reloads_due s2 = 1
  /\ reloadWacher_closed s3 = true
  /\ exists new,
      trace (world s3) = trace (world s2) ++ new
      /\ count_starts new + reloads_due s3 <= reloads_due s2
      /\ (reload_pending s2 = false -> reload_at s2 = Idle ->
          count_starts new = 0).
Proof.
  intros w s1 s2 s3. split; [reflexivity|].
  apply (shutdown_bounds_later_watchers (ext := Demo.working) s2 s3).
  - apply (reload_steps (ext := Demo.working)); reflexivity.
  - reflexivity.
Defined.

(** ** The listener of the bundler watcher *)

Section ListenerFacts.

Import Listener.

Lemma listen_app evs1 evs2 start :
listen (evs1 ++ evs2) start
= (fst (listen evs2 (fst (listen evs1 start))),
   snd (listen evs1 start) ++ snd (listen evs2 (fst (listen evs1 start)))).
Proof.
revert start. induction evs1 as [|[t ev] evs1 IH]; intros start; simpl.
- now destruct (listen evs2 start).
- destruct (on_event t ev start) as [st1 out1]. rewrite IH.
  destruct (listen evs1 st1) as [st2 out2]. simpl.
  destruct (listen evs2 st2) as [st3 out3]. simpl.
  now rewrite app_assoc.
Qed.

Lemma hook_calls_app a b : hook_calls (a ++ b) = hook_calls a ++ hook_calls b.
Proof. unfold hook_calls. apply flat_map_app. Qed.

Lemma listen_keeps_start evs : forall start,
forallb (fun te => negb (is_BUNDLE_START (snd te))) evs = true ->
fst (listen evs start) = start.
Proof.
induction evs as [|[t ev] evs IH]; intros start Hq; simpl; [reflexivity|].
simpl in Hq. apply andb_true_iff in Hq. destruct Hq as [He Hq].
destruct ev; simpl in *; try discriminate;
  specialize (IH start Hq); destruct (listen evs start); simpl in *;
  assumption.
Qed.

Lemma listen_END_last evs t1 start :
snd (listen (evs ++ [(t1, END)]) start)
= snd (listen evs start)
  ++ [ HookCall "compiled";
       LoggerSuccess ["Nitro built"; elapsed (fst (listen evs start)) t1];
       HookCall "dev:reload" ].
Proof. rewrite listen_app. reflexivity. Qed.

Lemma listen_start_after evs1 t0 evs2 start :
forallb (fun te => negb (is_BUNDLE_START (snd te))) evs2 = true ->
fst (listen (evs1 ++ (t0, BUNDLE_START) :: evs2) start) = Some t0.
Proof.
intros Hq.
change ((t0, BUNDLE_START) :: evs2) with ([(t0, BUNDLE_START)] ++ evs2).
rewrite listen_app. cbn [fst]. rewrite listen_app. cbn [fst].
rewrite (listen_keeps_start evs2 _ Hq). reflexivity.
Qed.

End ListenerFacts.

(** X18.  Over any sequence of watcher events, the listener calls the
    hooks [compiled] and [dev:reload], in this order, once for every
    [END], and calls no hook for any other event; an [ERROR] is only
    logged. *)
Theorem listener_hooks_once_per_END
        (evs : list (Z * watcher_event)) (start : option Z) :
  Listener.hook_calls (snd (Listener.listen evs start))
  = flat_map (fun te => if Listener.is_END (snd te)
                        then ["compiled"; "dev:reload"] else [])
             evs.
Proof.
  revert start. induction evs as [|[t ev] evs IH]; intros start; simpl.
  - reflexivity.
  - destruct (Listener.on_event t ev start) as [st1 out1] eqn:E.
    specialize (IH st1). destruct (Listener.listen evs st1) as [st2 out2].
    simpl in *. rewrite hook_calls_app, IH.
    destruct ev; simpl in E; inversion E; subst; reflexivity.
Qed.

(** X19.  The time the listener reports at an [END] is the time since
    the latest [BUNDLE_START] before it, whatever happened in between,
    other [END] events included; nothing is reported before the first
    [BUNDLE_START] of the watcher. *)
Theorem listener_reports_time_since_last_bundle_start
        (before between : list (Z * watcher_event)) (t0 t1 : Z)
        (start : option Z) :
  t0 <> 0%Z ->
  forallb (fun te => negb (Listener.is_BUNDLE_START (snd te))) between = true ->
  (exists out,
      snd (Listener.listen
             (before ++ (t0, BUNDLE_START) :: between ++ [(t1, END)]) start)
      = out ++ [ HookCall "compiled";
                 LoggerSuccess
                   ["Nitro built";
                    ("in " ++ Listener.show_Z (t1 - t0) ++ " ms")%string];
                 HookCall "dev:reload" ])
  /\ (exists out,
         snd (Listener.listen (between ++ [(t1, END)]) None)
         = out ++ [ HookCall "compiled";
                    LoggerSuccess ["Nitro built"; ""];
                    HookCall "dev:reload" ]).
Proof.
  intros Ht0 Hq. split.
  - replace (before ++ (t0, BUNDLE_START) :: between ++ [(t1, END)])
      with ((before ++ (t0, BUNDLE_START) :: between) ++ [(t1, END)])
      by (now rewrite <- app_assoc).
    rewrite listen_END_last, (listen_start_after before t0 between start Hq).
    unfold Listener.elapsed.
    destruct (Z.eqb_spec t0 0) as [Heq|_]; [contradiction|].
    eexists. reflexivity.
  - rewrite listen_END_last, (listen_keeps_start between None Hq).
    eexists. reflexivity.
Qed.

(** A second cycle that ends without a [BUNDLE_START] of its own. *)
Lemma listener_reports_time_witness :
  exists out,
    snd (Listener.listen
           ([(1000%Z, START)] ++ (1005%Z, BUNDLE_START)
              :: [(1040%Z, END); (5000%Z, START)] ++ [(5010%Z, END)])
           None)
    = out ++ [ HookCall "compiled";
               LoggerSuccess ["Nitro built"; "in 4005 ms"];
               HookCall "dev:reload" ].
Proof.
  apply (proj1 (listener_reports_time_since_last_bundle_start
                  [(1000%Z, START)] [(1040%Z, END); (5000%Z, START)]
                  1005%Z 5010%Z None ltac:(discriminate) eq_refl)).
Defined.
